(** * Secure Transport channel adapter (network-macosx.c)

    A shallow embedding of irssi's Secure Transport backend: the byte relay
    callbacks [_SSLReadFunction] / [_SSLWriteFunction], the GIOChannel
    function table ([irssi_ssl_read], [irssi_ssl_write], the pass-through
    operations, [irssi_ssl_free]), the handshake driver
    [irssi_ssl_handshake], the keychain lookup
    [CreateIdentityFromCommonName] and the constructor
    [irssi_ssl_get_iochannel] / [net_connect_ip_ssl].

    Everything the C code obtains from outside (POSIX, GLib, Secure
    Transport, CoreFoundation, the MacIrssi trust panel) is an external
    call answered by an arbitrary handler over an arbitrary world; every
    external call is logged together with its answer, so statements about
    what the adapter did or did not invoke are statements about the log. *)

From Stdlib Require Import ZArith List String Ascii Lia Bool.
From stdpp Require Import base gmap.
Import ListNotations.
Open Scope Z_scope.

(** ** C data *)

(** Pointers and opaque CoreFoundation / Secure Transport references are
    addresses; [NULL] (and Objective-C [nil]) is address 0. *)
Definition ptr := Z.
Definition NULL : ptr := 0.

Definition byte := Byte.byte.

(** [size_t] on the 64-bit target: conversions to it wrap modulo 2^64. *)
Definition SIZE_MOD : Z := 2 ^ 64.
Definition to_size_t (z : Z) : Z := z mod SIZE_MOD.

(** [OSStatus] codes used by the adapter (MacErrors.h, SecureTransport.h). *)
Definition OSStatus := Z.
Definition noErr : OSStatus := 0.
Definition errSSLWouldBlock : OSStatus := -9803.
Definition errSSLClosedGraceful : OSStatus := -9805.
Definition errSSLInternal : OSStatus := -9810.

(** [errno] value tested by the relay and by the handshake (sys/errno.h). *)
Definition EAGAIN : Z := 35.

(** [CFComparisonResult] value tested by the keychain lookup. *)
Definition kCFCompareEqualTo : Z := 0.

(** [NSOKButton], the code the trust panel returns on acceptance. *)
Definition NSOKButton : Z := 1.

Inductive GIOStatus : Type :=
| G_IO_STATUS_ERROR
| G_IO_STATUS_NORMAL
| G_IO_STATUS_EOF
| G_IO_STATUS_AGAIN.

Inductive SecTrustResultType : Type :=
| kSecTrustResultInvalid
| kSecTrustResultProceed
| kSecTrustResultConfirm
| kSecTrustResultDeny
| kSecTrustResultUnspecified
| kSecTrustResultRecoverableTrustFailure
| kSecTrustResultFatalTrustFailure
| kSecTrustResultOtherError.

Inductive SSLProtocol : Type :=
| kSSLProtocolUnknown
| kSSLProtocol2
| kSSLProtocol3
| kTLSProtocol1.

(** The two relay callbacks, as function pointers handed to the engine. *)
Inductive SSLIOFunc : Type :=
| fn_SSLReadFunction
| fn_SSLWriteFunction.

(** The one function table this file defines, as the target of
    [gChannel->funcs]. *)
Inductive GIOFuncsRef : Type :=
| funcs_unset
| ref_irssi_ssl_channel_funcs.

(** The part of GLib's [GIOChannel] header that the constructor writes. *)
Record GIOChannel : Type := mkGIOChannel {
  funcs : GIOFuncsRef;
  is_readable : bool;
  is_writeable : bool;
  use_buffer : bool
}.

(** [GIOSSLChannel], field for field. *)
Record GIOSSLChannel : Type := mkGIOSSLChannel {
  pad : GIOChannel;
  fd : Z;
  giochan : ptr;
  context : ptr;
  verify : bool;
  hostname : option string
}.

(** ** External calls *)

(** Answer of [read(2)]: the return value, [errno] as the caller reads it
    afterwards, and the bytes the kernel deposited in the buffer. *)
Record read_reply : Type := mkReadReply {
  rd_ret : Z;
  rd_errno : Z;
  rd_bytes : list byte
}.

(** Answer of [write(2)] and [select(2)]: return value and [errno]. *)
Record sys_reply : Type := mkSysReply {
  sys_ret : Z;
  sys_errno : Z
}.

(** Arguments of a printf-style log call. *)
Inductive log_arg : Type :=
| LStr (s : string)
| LInt (z : Z).

(** One constructor per external function the file calls, carrying the
    arguments as the source passes them; the index is the type of the
    answer.  For the indirect calls through the wrapped channel's function
    table, [owner] is the channel whose table supplies the function
    ([chan->giochan->funcs]) and [arg] the handle passed as its first
    argument. *)
Inductive call : Type -> Type :=
(* POSIX *)
| sys_read (fd : Z) (count : Z) : call read_reply
| sys_write (fd : Z) (buf : list byte) (count : Z) : call sys_reply
| sys_select (nfds : Z) (writefds : list Z) (timeout : Z * Z) : call sys_reply
(* GLib *)
| g_warning (fmt : string) (args : list log_arg) : call unit
| g_error (fmt : string) (args : list log_arg) : call bool
| g_new0_GIOSSLChannel : call ptr
| g_free (p : ptr) : call unit
| g_io_channel_init (ch : ptr) : call unit
| g_io_channel_unref (ch : ptr) : call unit
| g_io_channel_unix_get_fd (ch : ptr) : call Z
| funcs_io_seek (owner arg : ptr) (offset : Z) (type : Z) : call GIOStatus
| funcs_io_close (owner arg : ptr) : call GIOStatus
| funcs_io_create_watch (owner arg : ptr) (cond : Z) : call ptr
| funcs_io_set_flags (owner arg : ptr) (flags : Z) : call GIOStatus
| funcs_io_get_flags (owner arg : ptr) : call Z
(* irssi core *)
| net_connect_ip (ip : ptr) (port : Z) (my_ip : ptr) : call ptr
(* Secure Transport *)
| SSLNewContext (isServer : bool) : call (OSStatus * ptr)
| SSLDisposeContext (ctx : ptr) : call OSStatus
| SSLSetIOFuncs (ctx : ptr) (readFunc writeFunc : SSLIOFunc) : call OSStatus
| SSLSetProtocolVersionEnabled (ctx : ptr) (protocol : SSLProtocol)
    (enable : bool) : call OSStatus
| SSLSetEnableCertVerify (ctx : ptr) (enableVerify : bool) : call OSStatus
| SSLSetAllowsAnyRoot (ctx : ptr) (anyRoot : bool) : call OSStatus
| SSLSetCertificate (ctx : ptr) (certRefs : ptr) : call OSStatus
| SSLSetEncryptionCertificate (ctx : ptr) (certRefs : ptr) : call OSStatus
| SSLSetConnection (ctx : ptr) (connection : ptr) : call OSStatus
| SSLHandshake (ctx : ptr) : call OSStatus
| SSLRead (ctx : ptr) (dataLength : Z) : call (OSStatus * Z * list byte)
| SSLWrite (ctx : ptr) (data : list byte) (dataLength : Z)
    : call (OSStatus * Z)
| SSLCopyPeerTrust (ctx : ptr) : call (OSStatus * ptr)
(* Security framework, CoreFoundation *)
| SecTrustEvaluate (trust : ptr) : call (OSStatus * SecTrustResultType)
| SecIdentitySearchCreate (keychainOrArray : ptr) (keyUsage : Z)
    : call (OSStatus * ptr)
| SecIdentitySearchCopyNext (searchRef : ptr) : call (OSStatus * ptr)
| SecIdentityCopyCertificate (identityRef : ptr) : call (OSStatus * ptr)
| SecCertificateCopyCommonName (certificate : ptr) : call (OSStatus * ptr)
| CFStringCreateWithCString (cStr : string) : call ptr
| CFStringCompare (s1 s2 : ptr) (compareOptions : Z) : call Z
| CFArrayCreate (values : list ptr) (numValues : Z) : call ptr
| CFRelease (cf : ptr) : call unit
(* MacIrssi *)
| irssibridge_present_trust_panel (trust : ptr) : call Z.

(** A logged external call: the call and the answer it received. *)
Inductive event : Type :=
| Ev (T : Type) (c : call T) (r : T).
Arguments Ev {T} c r.

(** Why a run stopped without a result. *)
Inductive halt : Type :=
| Aborted      (* the process was aborted inside g_error *)
| BadPointer   (* a handle that is not a live GIOSSLChannel was dereferenced *)
| OutOfFuel.   (* a loop was still running when the fuel ran out *)

Inductive outcome (A : Type) : Type :=
| Done (a : A)
| Halt (h : halt).
Arguments Done {A} a.
Arguments Halt {A} h.

(** Log messages that contain a quoted placeholder. *)
Definition dquote : string := String (ascii_of_nat 34) EmptyString.
Definition quoted_s : string :=
  String.append dquote (String.append "%s" dquote).

Declare Scope adapter_scope.
Delimit Scope adapter_scope with adapter.

(** ** The adapter *)

Section Adapter.

(** The world outside the adapter and the way it answers calls. *)
Context {W : Type}.
Variable handler : forall T : Type, call T -> W -> T * W.

(** Program state: the outside world and the heap of live
    [GIOSSLChannel] structures. *)
Record St : Type := mkSt {
  env : W;
  chans : gmap Z GIOSSLChannel
}.

(** State and log monad with early halting. *)
Definition M (A : Type) : Type := St -> outcome A * St * list event.

Definition ret {A : Type} (a : A) : M A := fun s => (Done a, s, []).

Definition bind {A B : Type} (m : M A) (k : A -> M B) : M B := fun s =>
  match m s with
  | (Done a, s1, l1) =>
      match k a s1 with
      | (o, s2, l2) => (o, s2, l1 ++ l2)
      end
  | (Halt h, s1, l1) => (Halt h, s1, l1)
  end.

Definition stop {A : Type} (h : halt) : M A := fun s => (Halt h, s, []).

(** Perform an external call: ask the handler, log call and answer. *)
Definition ext {T : Type} (c : call T) : M T := fun s =>
  match handler T c (env s) with
  | (r, w) => (Done r, mkSt w (chans s), [Ev c r])
  end.

(** [(GIOSSLChannel* )handle] followed by field reads. *)
Definition deref (handle : ptr) : M GIOSSLChannel := fun s =>
  match chans s !! handle with
  | Some ch => (Done ch, s, [])
  | None => (Halt BadPointer, s, [])
  end.

Definition store (p : ptr) (ch : GIOSSLChannel) : M unit := fun s =>
  (Done tt, mkSt (env s) (<[p := ch]> (chans s)), []).

Definition dealloc (p : ptr) : M unit := fun s =>
  (Done tt, mkSt (env s) (delete p (chans s)), []).

Notation "x <- m ;; k" := (bind m (fun x => k))
  (at level 62, m at next level, right associativity) : adapter_scope.
Notation "'let*' pat := m 'in' k" :=
  (bind m (fun x => match x with pat => k end))
  (at level 62, pat pattern, m at next level, right associativity)
  : adapter_scope.
Notation "m ;;; k" := (bind m (fun _ => k))
  (at level 62, right associativity) : adapter_scope.
Local Open Scope adapter_scope.

(** [g_error] logs at the fatal level; whether control comes back is the
    library's business, so the handler says ([true]: it returned). *)
Definition fatal (fmt : string) (args : list log_arg) : M unit :=
  returned <- ext (g_error fmt args) ;;
  if returned : bool then ret tt else stop Aborted.

(** *** CreateIdentityFromCommonName *)

(** The [while] loop over the keychain search.  Returns the values of
    [discoveredIdentityRef] and [identityRef] at loop exit.  A failing
    [SecIdentitySearchCopyNext] is taken not to write its out-parameter. *)
Fixpoint identity_search_loop (fuel : nat)
    (identitySearchRef certificateCommonNameRef identityRef : ptr)
    : M (ptr * ptr) :=
  match fuel with
  | O => stop OutOfFuel
  | S fuel' =>
    let* (status, next) :=
      ext (SecIdentitySearchCopyNext identitySearchRef) in
    if status =? noErr then
      let identityRef := next in
      let* (substatus, certificateRef) :=
        ext (SecIdentityCopyCertificate identityRef) in
      if negb (substatus =? noErr) then
        identity_search_loop fuel' identitySearchRef
          certificateCommonNameRef identityRef
      else
        let* (substatus, commonNameRef) :=
          ext (SecCertificateCopyCommonName certificateRef) in
        if negb (substatus =? noErr) then
          ext (CFRelease certificateRef) ;;;
          identity_search_loop fuel' identitySearchRef
            certificateCommonNameRef identityRef
        else
          cmp <- ext (CFStringCompare commonNameRef
                        certificateCommonNameRef 0) ;;
          if cmp =? kCFCompareEqualTo then
            ext (CFRelease commonNameRef) ;;;
            ext (CFRelease certificateRef) ;;;
            ret (identityRef, identityRef)
          else
            ext (CFRelease commonNameRef) ;;;
            ext (CFRelease certificateRef) ;;;
            ext (CFRelease identityRef) ;;;
            identity_search_loop fuel' identitySearchRef
              certificateCommonNameRef identityRef
    else
      ret (NULL, identityRef)
  end.

Definition CreateIdentityFromCommonName (fuel : nat)
    (certificate : string) (privateKey : option string) : M ptr :=
  let* (status, identitySearchRef) := ext (SecIdentitySearchCreate NULL 0) in
  if negb (status =? noErr) then
    ext (g_warning
           (String.append
              "Unable to create search for keychain identity matching "
              quoted_s)
           [LStr certificate]) ;;;
    ret NULL
  else
    certificateCommonNameRef <- ext (CFStringCreateWithCString certificate) ;;
    let* (discoveredIdentityRef, identityRef) :=
      identity_search_loop fuel identitySearchRef
        certificateCommonNameRef NULL in
    ext (CFRelease certificateCommonNameRef) ;;;
    ext (CFRelease identitySearchRef) ;;;
    if discoveredIdentityRef =? NULL then
      ext (g_warning
             (String.append
                "Unable to find keychain identity with common name "
                (String.append quoted_s "."))
             [LStr certificate]) ;;;
      ret NULL
    else
      ret identityRef.

(** *** The byte relay *)

(** Bytes [bs] written into buffer [data] from offset [off] on. *)
Definition poke (data : list byte) (off : Z) (bs : list byte) : list byte :=
  firstn (Z.to_nat off) data ++ bs
    ++ skipn (Z.to_nat off + length bs) data.

(** Bytes [off .. off+n) of buffer [data]. *)
Definition peek (data : list byte) (off n : Z) : list byte :=
  firstn (Z.to_nat n) (skipn (Z.to_nat off) data).

(** The loop of [_SSLReadFunction], entered with the current [len].
    Result: status, buffer contents, and the value left in
    [*dataLength]. *)
Fixpoint SSLReadFunction_loop (fuel : nat) (fd : Z) (data : list byte)
    (dataLength len : Z) : M (OSStatus * list byte * Z) :=
  if len <? dataLength then
    match fuel with
    | O => stop OutOfFuel
    | S fuel' =>
      r <- ext (sys_read fd (dataLength - len)) ;;
      let res := to_size_t (rd_ret r) in
      if res =? to_size_t (-1) then
        if rd_errno r =? EAGAIN then
          ret (errSSLWouldBlock, data, len)
        else
          ext (g_warning "read returned %d" [LInt (rd_errno r)]) ;;;
          ret (errSSLInternal, data, dataLength)
      else
        SSLReadFunction_loop fuel' fd (poke data len (rd_bytes r))
          dataLength (to_size_t (len + res))
    end
  else
    ret (noErr, data, len).

Definition _SSLReadFunction (fuel : nat) (connection : ptr)
    (data : list byte) (dataLength : Z) : M (OSStatus * list byte * Z) :=
  channel <- deref connection ;;
  SSLReadFunction_loop fuel (fd channel) data dataLength 0.

(** The loop of [_SSLWriteFunction].  Result: status and the value left
    in [*dataLength]. *)
Fixpoint SSLWriteFunction_loop (fuel : nat) (fd : Z) (data : list byte)
    (dataLength len : Z) : M (OSStatus * Z) :=
  if len <? dataLength then
    match fuel with
    | O => stop OutOfFuel
    | S fuel' =>
      let chunk :=
        if dataLength - len <? 4096 then dataLength - len else 4096 in
      r <- ext (sys_write fd (peek data len chunk) chunk) ;;
      let res := to_size_t (sys_ret r) in
      if res =? to_size_t (-1) then
        if sys_errno r =? EAGAIN then
          ret (errSSLWouldBlock, len)
        else
          ext (g_warning "write returned %d" [LInt (sys_errno r)]) ;;;
          ret (errSSLInternal, dataLength)
      else
        SSLWriteFunction_loop fuel' fd data dataLength
          (to_size_t (len + res))
    end
  else
    ret (noErr, len).

Definition _SSLWriteFunction (fuel : nat) (connection : ptr)
    (data : list byte) (dataLength : Z) : M (OSStatus * Z) :=
  channel <- deref connection ;;
  SSLWriteFunction_loop fuel (fd channel) data dataLength 0.

(** *** The GIOChannel operations *)

Definition irssi_ssl_free (handle : ptr) : M unit :=
  channel <- deref handle ;;
  ext (g_io_channel_unref (giochan channel)) ;;;
  ext (SSLDisposeContext (context channel)) ;;;
  ext (g_free handle) ;;;
  dealloc handle.

(** Result: status, [*ret], and the bytes the engine put in [buf]. *)
Definition irssi_ssl_read (handle : ptr) (len : Z)
    : M (GIOStatus * Z * list byte) :=
  channel <- deref handle ;;
  let* (status, processed, buf) := ext (SSLRead (context channel) len) in
  if status =? noErr then
    ret (G_IO_STATUS_NORMAL, processed, buf)
  else if status =? errSSLWouldBlock then
    ret (G_IO_STATUS_AGAIN, 0, buf)
  else if status =? errSSLClosedGraceful then
    ret (G_IO_STATUS_EOF, 0, buf)
  else
    ret (G_IO_STATUS_ERROR, 0, buf).

(** Result: status and [*ret]. *)
Definition irssi_ssl_write (handle : ptr) (buf : list byte) (len : Z)
    : M (GIOStatus * Z) :=
  channel <- deref handle ;;
  let* (status, processed) := ext (SSLWrite (context channel) buf len) in
  if status =? noErr then
    ret (G_IO_STATUS_NORMAL, processed)
  else if status =? errSSLWouldBlock then
    ret (G_IO_STATUS_AGAIN, 0)
  else
    ret (G_IO_STATUS_ERROR, 0).

Definition irssi_ssl_seek (handle : ptr) (offset : Z) (type : Z)
    : M GIOStatus :=
  chan <- deref handle ;;
  ext (funcs_io_seek (giochan chan) handle offset type).

Definition irssi_ssl_close (handle : ptr) : M GIOStatus :=
  chan <- deref handle ;;
  ext (funcs_io_close (giochan chan) handle).

Definition irssi_ssl_create_watch (handle : ptr) (cond : Z) : M ptr :=
  chan <- deref handle ;;
  ext (funcs_io_create_watch (giochan chan) handle cond).

Definition irssi_ssl_set_flags (handle : ptr) (flags : Z) : M GIOStatus :=
  chan <- deref handle ;;
  ext (funcs_io_set_flags (giochan chan) handle flags).

Definition irssi_ssl_get_flags (handle : ptr) : M Z :=
  chan <- deref handle ;;
  ext (funcs_io_get_flags (giochan chan) handle).

(** The function table [irssi_ssl_channel_funcs]. *)
Record GIOFuncs : Type := mkGIOFuncs {
  io_read : ptr -> Z -> M (GIOStatus * Z * list byte);
  io_write : ptr -> list byte -> Z -> M (GIOStatus * Z);
  io_seek : ptr -> Z -> Z -> M GIOStatus;
  io_close : ptr -> M GIOStatus;
  io_create_watch : ptr -> Z -> M ptr;
  io_free : ptr -> M unit;
  io_set_flags : ptr -> Z -> M GIOStatus;
  io_get_flags : ptr -> M Z
}.

Definition irssi_ssl_channel_funcs : GIOFuncs :=
  mkGIOFuncs irssi_ssl_read irssi_ssl_write irssi_ssl_seek irssi_ssl_close
    irssi_ssl_create_watch irssi_ssl_free irssi_ssl_set_flags
    irssi_ssl_get_flags.

(** *** irssi_ssl_handshake *)

(** Whether the engine's verdict is one the [switch] accepts unasked. *)
Definition trust_result_accepted (trustResult : SecTrustResultType) : bool :=
  match trustResult with
  | kSecTrustResultProceed => true
  | kSecTrustResultUnspecified => true
  | _ => false
  end.

Definition irssi_ssl_handshake (handle : ptr) : M Z :=
  channel <- deref handle ;;
  sel <- ext (sys_select (fd channel + 1) [fd channel] (0, 0)) ;;
  if sys_ret sel <? 1 then
    if (sys_ret sel =? 0) || (sys_errno sel =? EAGAIN) then
      ext (g_warning "select() returned EAGAIN" []) ;;;
      ret 3
    else
      ext (g_warning "select() waiting for socket connect returned %d."
             [LInt (sys_errno sel)]) ;;;
      ret (-1)
  else
    status <- ext (SSLHandshake (context channel)) ;;
    if negb (status =? noErr) then
      if status =? errSSLWouldBlock then
        ret 1
      else
        ext (g_warning "SSLHandshake failed with error %d."
               [LInt status]) ;;;
        ret (-1)
    else
      let* (status, secTrustRef) :=
        ext (SSLCopyPeerTrust (context channel)) in
      if negb (status =? noErr) then
        ext (g_warning
               "SSLCopyPeerTrust failed, unable to verify client cerfiticates. %d"
               [LInt status]) ;;;
        ret (-1)
      else
        let* (status, trustResult) :=
          ext (SecTrustEvaluate secTrustRef) in
        if negb (status =? noErr) then
          ext (g_warning
                 "SecTrustEvaluate failed, unable to verify client certificates. %d"
                 [LInt status]) ;;;
          ext (CFRelease secTrustRef) ;;;
          ret (-1)
        else if trust_result_accepted trustResult then
          ext (CFRelease secTrustRef) ;;;
          ret 0
        else
          code <- ext (irssibridge_present_trust_panel secTrustRef) ;;
          if negb (code =? NSOKButton) then
            ext (CFRelease secTrustRef) ;;;
            ret (-1)
          else
            ext (CFRelease secTrustRef) ;;;
            ret 0.

(** *** irssi_ssl_get_iochannel and net_connect_ip_ssl *)

Definition irssi_ssl_get_iochannel (fuel : nat) (handle : ptr)
    (hostname : option string) (mycert mypkey cafile capath : option string)
    (verify : bool) : M ptr :=
  fd <- ext (g_io_channel_unix_get_fd handle) ;;
  if fd =? 0 then ret NULL
  else
    let* (status, contextRef) := ext (SSLNewContext false) in
    if negb (status =? noErr) then
      fatal "Failed to create new SSLContextRef, %d." [LInt status] ;;;
      ret NULL
    else
      status <- ext (SSLSetIOFuncs contextRef
                       fn_SSLReadFunction fn_SSLWriteFunction) ;;
      if negb (status =? noErr) then
        fatal "Failed to set IOFuncs, %d." [LInt status] ;;;
        ext (SSLDisposeContext contextRef) ;;;
        ret NULL
      else
        ext (SSLSetProtocolVersionEnabled contextRef kSSLProtocol2 false) ;;;
        ext (SSLSetEnableCertVerify contextRef verify) ;;;
        ext (SSLSetAllowsAnyRoot contextRef true) ;;;
        let finish : M ptr :=
          channel <- ext g_new0_GIOSSLChannel ;;
          store channel
            (mkGIOSSLChannel
               (mkGIOChannel funcs_unset false false false)
               fd handle contextRef verify hostname) ;;;
          store channel
            (mkGIOSSLChannel
               (mkGIOChannel ref_irssi_ssl_channel_funcs false false false)
               fd handle contextRef verify hostname) ;;;
          ext (g_io_channel_init channel) ;;;
          store channel
            (mkGIOSSLChannel
               (mkGIOChannel ref_irssi_ssl_channel_funcs true true false)
               fd handle contextRef verify hostname) ;;;
          status <- ext (SSLSetConnection contextRef channel) ;;
          if negb (status =? noErr) then
            fatal "Failed to set SSLConnection, %d." [LInt status] ;;;
            ext (SSLDisposeContext contextRef) ;;;
            ret NULL
          else
            ret channel
        in
        match mycert with
        | Some certname =>
          identity <- CreateIdentityFromCommonName fuel certname mypkey ;;
          if identity =? NULL then
            ext (g_warning
                   "Failed to create an identity out of supplied certificates."
                   []) ;;;
            ext (SSLDisposeContext contextRef) ;;;
            ret NULL
          else
            certificates <- ext (CFArrayCreate [identity] 1) ;;
            status <- ext (SSLSetCertificate contextRef certificates) ;;
            status <-
              (if status =? noErr
               then ext (SSLSetEncryptionCertificate contextRef certificates)
               else ret status) ;;
            ext (CFRelease certificates) ;;;
            ext (CFRelease identity) ;;;
            if negb (status =? noErr) then
              ext (g_warning
                     "Failed to set certificate for SSL connection. %d"
                     [LInt status]) ;;;
              ret NULL
            else
              finish
        | None => finish
        end.

Definition net_connect_ip_ssl (fuel : nat) (ip : ptr) (port : Z)
    (hostname : option string) (my_ip : ptr)
    (cert pkey cafile capath : option string) (verify : bool) : M ptr :=
  handle <- ext (net_connect_ip ip port my_ip) ;;
  if handle =? NULL then ret NULL
  else
    ssl_handle <- irssi_ssl_get_iochannel fuel handle hostname cert pkey
                    cafile capath verify ;;
    if ssl_handle =? NULL then
      ext (g_io_channel_unref handle) ;;;
      ret NULL
    else
      ret ssl_handle.

End Adapter.

Arguments St W : clear implicits.
Arguments M W A : clear implicits.

(** ** Observations on logs *)

(** Generic selection of logged calls. *)
Definition event_is (p : forall T : Type, call T -> bool) (e : event) : bool :=
  match e with
  | Ev c _ => p _ c
  end.

Definition count_calls (p : forall T : Type, call T -> bool)
    (log : list event) : nat :=
  length (List.filter (event_is p) log).

Definition is_raw_io (T : Type) (c : call T) : bool :=
  match c with
  | sys_read _ _ => true
  | sys_write _ _ _ => true
  | _ => false
  end.

Definition is_handshake_step (T : Type) (c : call T) : bool :=
  match c with
  | SSLHandshake _ => true
  | _ => false
  end.

Definition is_trust_panel (T : Type) (c : call T) : bool :=
  match c with
  | irssibridge_present_trust_panel _ => true
  | _ => false
  end.

Definition is_dispose_of (ctx : ptr) (T : Type) (c : call T) : bool :=
  match c with
  | SSLDisposeContext x => x =? ctx
  | _ => false
  end.

Definition is_unref_of (ch : ptr) (T : Type) (c : call T) : bool :=
  match c with
  | g_io_channel_unref x => x =? ch
  | _ => false
  end.

(** The bytes one logged call put on the raw descriptor: the accepted
    prefix of what a successful [write] was offered. *)
Definition sent_by (e : event) : list byte :=
  match e with
  | Ev c r =>
    match c in call T return T -> list byte with
    | sys_write _ buf _ => fun r =>
        if sys_ret r <? 0 then [] else take (Z.to_nat (sys_ret r)) buf
    | _ => fun _ => []
    end r
  end.

Definition wire (log : list event) : list byte := flat_map sent_by log.

(** The bytes one logged call took off the raw descriptor. *)
Definition received_by (e : event) : list byte :=
  match e with
  | Ev c r =>
    match c in call T return T -> list byte with
    | sys_read _ _ => fun r => if rd_ret r <? 0 then [] else rd_bytes r
    | _ => fun _ => []
    end r
  end.

Definition delivered (log : list event) : list byte :=
  flat_map received_by log.

(** [errno] of every logged raw transfer that returned -1. *)
Definition failure_of (e : event) : list Z :=
  match e with
  | Ev c r =>
    match c in call T return T -> list Z with
    | sys_read _ _ => fun r => if rd_ret r <? 0 then [rd_errno r] else []
    | sys_write _ _ _ => fun r => if sys_ret r <? 0 then [sys_errno r] else []
    | _ => fun _ => []
    end r
  end.

Definition raw_failures (log : list event) : list Z := flat_map failure_of log.

(** A logged [write] goes to [fd], offers exactly [count] bytes, and at
    most [limit] of them. *)
Definition chunk_bounded (fd limit : Z) (e : event) : bool :=
  match e with
  | Ev c _ =>
    match c with
    | sys_write fd' buf count =>
        (fd' =? fd) && (count <=? limit) && (Z.of_nat (length buf) =? count)
    | _ => true
    end
  end.

(** What POSIX promises about the raw descriptor: a transfer of [count]
    bytes ([count] is a [size_t]) returns -1 or a number between 0 and
    [count], representable in [ssize_t]; a successful read deposits exactly
    that many bytes. *)
Definition posix_write_ok {W : Type}
    (handler : forall T : Type, call T -> W -> T * W) : Prop :=
  forall w fd buf count,
    0 <= count ->
    let r := fst (handler _ (sys_write fd buf count) w) in
    sys_ret r = -1 \/ 0 <= sys_ret r <= count.

Definition posix_read_ok {W : Type}
    (handler : forall T : Type, call T -> W -> T * W) : Prop :=
  forall w fd count,
    0 <= count ->
    let r := fst (handler _ (sys_read fd count) w) in
    rd_ret r = -1 \/
    (0 <= rd_ret r <= count /\ rd_ret r < 2 ^ 63 /\
     Z.of_nat (length (rd_bytes r)) = rd_ret r).

(** A logged [read] comes from [fd]. *)
Definition read_from (fd : Z) (e : event) : bool :=
  match e with
  | Ev c _ =>
    match c with
    | sys_read fd' _ => fd' =? fd
    | _ => true
    end
  end.

(** Calls into the crypto engine and the trust machinery. *)
Definition is_engine_call (T : Type) (c : call T) : bool :=
  match c with
  | SSLNewContext _ | SSLDisposeContext _ | SSLSetIOFuncs _ _ _
  | SSLSetProtocolVersionEnabled _ _ _ | SSLSetEnableCertVerify _ _
  | SSLSetAllowsAnyRoot _ _ | SSLSetCertificate _ _
  | SSLSetEncryptionCertificate _ _ | SSLSetConnection _ _
  | SSLHandshake _ | SSLRead _ _ | SSLWrite _ _ _ | SSLCopyPeerTrust _
  | SecTrustEvaluate _ | irssibridge_present_trust_panel _ => true
  | _ => false
  end.

(** The two warnings with which [CreateIdentityFromCommonName] reports that
    it resolved nothing. *)
Definition is_lookup_failure (T : Type) (c : call T) : bool :=
  match c with
  | g_warning fmt _ =>
      String.eqb fmt
        (String.append
           "Unable to create search for keychain identity matching "
           quoted_s)
      || String.eqb fmt
           (String.append
              "Unable to find keychain identity with common name "
              (String.append quoted_s "."))
  | _ => false
  end.

(** The steps of the handshake driver, read off the log. *)
Definition handshake_step_of (e : event) : list (ptr * OSStatus) :=
  match e with
  | Ev c r =>
    match c in call T return T -> list (ptr * OSStatus) with
    | SSLHandshake ctx => fun r => [(ctx, r)]
    | _ => fun _ => []
    end r
  end.

Definition peer_trust_copy_of (e : event) : list (ptr * OSStatus * ptr) :=
  match e with
  | Ev c r =>
    match c in call T return T -> list (ptr * OSStatus * ptr) with
    | SSLCopyPeerTrust ctx => fun r => [(ctx, fst r, snd r)]
    | _ => fun _ => []
    end r
  end.

Definition trust_evaluation_of (e : event)
    : list (ptr * OSStatus * SecTrustResultType) :=
  match e with
  | Ev c r =>
    match c in call T return T -> list (ptr * OSStatus * SecTrustResultType)
    with
    | SecTrustEvaluate trust => fun r => [(trust, fst r, snd r)]
    | _ => fun _ => []
    end r
  end.

Definition trust_panel_of (e : event) : list (ptr * Z) :=
  match e with
  | Ev c r =>
    match c in call T return T -> list (ptr * Z) with
    | irssibridge_present_trust_panel trust => fun r => [(trust, r)]
    | _ => fun _ => []
    end r
  end.

Definition handshake_steps (log : list event) := flat_map handshake_step_of log.
Definition peer_trust_copies (log : list event) :=
  flat_map peer_trust_copy_of log.
Definition trust_evaluations (log : list event) :=
  flat_map trust_evaluation_of log.
Definition trust_panels (log : list event) := flat_map trust_panel_of log.

(** ** The caller's side *)

(** Modelled from the spec: HandshakeResult, the reading of the [int] that
    [irssi_ssl_handshake] returns (its caller is not among the sources):
    0 is Established, -1 is Failed, and the remaining codes the function
    produces, 1 and 3, ask the caller to come back when the descriptor is
    ready. *)
Inductive HandshakeResult : Type :=
| InProgress
| Established
| Failed.

Definition handshake_result (code : Z) : HandshakeResult :=
  if code =? 0 then Established
  else if code =? -1 then Failed
  else InProgress.

(** Modelled from the spec: the lifecycle state of a TransportChannel, which
    the C structure does not store.  A channel starts Unestablished, a
    handshake call moves it to Handshaking, Established or Failed, and the
    last two are left only by destruction. *)
Inductive lifecycle : Type :=
| Unestablished
| Handshaking
| LEstablished
| LFailed.

Definition lifecycle_step (s : lifecycle) (r : HandshakeResult) : lifecycle :=
  match s with
  | LEstablished => LEstablished
  | LFailed => LFailed
  | _ =>
    match r with
    | InProgress => Handshaking
    | Established => LEstablished
    | Failed => LFailed
    end
  end.

(** What a caller may do with a live channel short of destroying it. *)
Inductive client_op : Type :=
| do_handshake
| do_read (len : Z)
| do_write (buf : list byte) (len : Z)
| do_seek (offset type : Z)
| do_close
| do_create_watch (cond : Z)
| do_set_flags (flags : Z)
| do_get_flags.

Section Client.

Context {W : Type}.
Variable handler : forall T : Type, call T -> W -> T * W.

Definition client_call (handle : ptr) (s : lifecycle) (op : client_op)
    : M W lifecycle :=
  let table := irssi_ssl_channel_funcs handler in
  match op with
  | do_handshake =>
      bind (irssi_ssl_handshake handler handle)
        (fun code => ret (lifecycle_step s (handshake_result code)))
  | do_read len => bind (io_read table handle len) (fun _ => ret s)
  | do_write buf len => bind (io_write table handle buf len) (fun _ => ret s)
  | do_seek offset type =>
      bind (io_seek table handle offset type) (fun _ => ret s)
  | do_close => bind (io_close table handle) (fun _ => ret s)
  | do_create_watch cond =>
      bind (io_create_watch table handle cond) (fun _ => ret s)
  | do_set_flags flags =>
      bind (io_set_flags table handle flags) (fun _ => ret s)
  | do_get_flags => bind (io_get_flags table handle) (fun _ => ret s)
  end.

Fixpoint client_session (handle : ptr) (s : lifecycle)
    (ops : list client_op) : M W lifecycle :=
  match ops with
  | [] => ret s
  | op :: ops' =>
      bind (client_call handle s op)
        (fun s' => client_session handle s' ops')
  end.

(** A session followed by the destruction of the channel. *)
Definition session_then_destroy (handle : ptr) (ops : list client_op)
    : M W lifecycle :=
  bind (client_session handle Unestablished ops)
    (fun s => bind (io_free (irssi_ssl_channel_funcs handler) handle)
                (fun _ => ret s)).

(** Construction followed by a handshake call and one read and one write,
    collecting every result. *)
Definition open_and_use (fuel : nat) (handle : ptr)
    (hostname mycert mypkey cafile capath : option string) (verify : bool)
    (len : Z) (buf : list byte)
    : M W (ptr * option (Z * (GIOStatus * Z * list byte)
                          * (GIOStatus * Z))) :=
  bind (irssi_ssl_get_iochannel handler fuel handle hostname mycert mypkey
          cafile capath verify)
    (fun h =>
       if h =? NULL then ret (h, None)
       else
         bind (irssi_ssl_handshake handler h) (fun code =>
         bind (irssi_ssl_read handler h len) (fun rd =>
         bind (irssi_ssl_write handler h buf len) (fun wr =>
         ret (h, Some (code, rd, wr)))))).

End Client.

(** ** Concrete surroundings *)

(** A world in which every call succeeds at once: descriptors are ready,
    the engine reports [noErr], the peer's chain validates, the keychain is
    empty, and the raw descriptor is at end of stream (reads return 0). *)
Definition quiet_reply (T : Type) (c : call T) : T :=
  match c in call T0 return T0 with
  | sys_read _ _ => mkReadReply 0 0 []
  | sys_write _ _ count => mkSysReply count 0
  | sys_select _ _ _ => mkSysReply 1 0
  | g_warning _ _ => tt
  | g_error _ _ => false
  | g_new0_GIOSSLChannel => 4096
  | g_free _ => tt
  | g_io_channel_init _ => tt
  | g_io_channel_unref _ => tt
  | g_io_channel_unix_get_fd _ => 3
  | funcs_io_seek _ _ _ _ => G_IO_STATUS_NORMAL
  | funcs_io_close _ _ => G_IO_STATUS_NORMAL
  | funcs_io_create_watch _ _ _ => 1
  | funcs_io_set_flags _ _ _ => G_IO_STATUS_NORMAL
  | funcs_io_get_flags _ _ => 0
  | net_connect_ip _ _ _ => 2048
  | SSLNewContext _ => (noErr, 8192)
  | SSLDisposeContext _ => noErr
  | SSLSetIOFuncs _ _ _ => noErr
  | SSLSetProtocolVersionEnabled _ _ _ => noErr
  | SSLSetEnableCertVerify _ _ => noErr
  | SSLSetAllowsAnyRoot _ _ => noErr
  | SSLSetCertificate _ _ => noErr
  | SSLSetEncryptionCertificate _ _ => noErr
  | SSLSetConnection _ _ => noErr
  | SSLHandshake _ => noErr
  | SSLRead _ _ => (noErr, 0, [])
  | SSLWrite _ _ n => (noErr, n)
  | SSLCopyPeerTrust _ => (noErr, 12288)
  | SecTrustEvaluate _ => (noErr, kSecTrustResultProceed)
  | SecIdentitySearchCreate _ _ => (noErr, 16384)
  | SecIdentitySearchCopyNext _ => (-25300, NULL)
  | SecIdentityCopyCertificate _ => (noErr, 20480)
  | SecCertificateCopyCommonName _ => (noErr, 24576)
  | CFStringCreateWithCString _ => 28672
  | CFStringCompare _ _ _ => 1
  | CFArrayCreate _ _ => 32768
  | CFRelease _ => tt
  | irssibridge_present_trust_panel _ => 0
  end.

Definition quiet_handler (T : Type) (c : call T) (w : unit) : T * unit :=
  (quiet_reply T c, w).

(** The quiet world with the answers of the handshake path chosen: the
    readiness probe, the engine's handshake step, the engine's verdict on
    the chain, and the trust panel's button. *)
Definition staged_handler (sel : sys_reply) (hs : OSStatus)
    (verdict : SecTrustResultType) (button : Z)
    (T : Type) (c : call T) (w : unit) : T * unit :=
  match c in call T0 return T0 * unit with
  | sys_select _ _ _ => (sel, w)
  | SSLHandshake _ => (hs, w)
  | SecTrustEvaluate _ => ((noErr, verdict), w)
  | irssibridge_present_trust_panel _ => (button, w)
  | c' => (quiet_reply _ c', w)
  end.

(** The quiet world with a keychain whose first identity carries the name
    asked for, and with the answer of [SSLSetCertificate] chosen. *)
Definition keychain_hit_handler (install : OSStatus)
    (T : Type) (c : call T) (w : unit) : T * unit :=
  match c in call T0 return T0 * unit with
  | SecIdentitySearchCopyNext _ => ((noErr, 36864), w)
  | CFStringCompare _ _ _ => (kCFCompareEqualTo, w)
  | SSLSetCertificate _ _ => (install, w)
  | c' => (quiet_reply _ c', w)
  end.

(** A raw descriptor that takes or gives at most two bytes per call and
    reports EAGAIN on its third call (the world counts the raw calls);
    reads deliver the byte 0x2a. *)
Definition trickle_handler (T : Type) (c : call T) (w : nat) : T * nat :=
  match c in call T0 return T0 * nat with
  | sys_write _ _ count =>
      (if Nat.eqb w 2 then mkSysReply (-1) EAGAIN
       else mkSysReply (Z.min count 2) 0, S w)
  | sys_read _ count =>
      (if Nat.eqb w 2 then mkReadReply (-1) EAGAIN []
       else mkReadReply (Z.min count 2) 0
              (repeat Byte.x2a (Z.to_nat (Z.min count 2))), S w)
  | c' => (quiet_reply _ c', w)
  end.


(** A live channel at address 4096 wrapping the raw channel 2048 on
    descriptor 3 with engine context 8192. *)
Definition live_channel : GIOSSLChannel :=
  mkGIOSSLChannel (mkGIOChannel ref_irssi_ssl_channel_funcs true true false)
    3 2048 8192 false None.

Definition live_state {W : Type} (w : W) : St W :=
  mkSt w (<[4096 := live_channel]> ∅).

Definition fresh_state {W : Type} (w : W) : St W := mkSt w ∅.

(** A session on the live channel followed by its destruction: the final
    lifecycle state, how often context 8192 was disposed of, how often raw
    channel 2048 was released, and what is left at the channel's address. *)
Definition destroy_report
    (handler : forall T : Type, call T -> unit -> T * unit)
    (ops : list client_op)
    : outcome lifecycle * nat * nat * option GIOSSLChannel :=
  match session_then_destroy handler 4096 ops (live_state tt) with
  | (out, st2, log2) =>
      (out, count_calls (is_dispose_of 8192) log2,
       count_calls (is_unref_of 2048) log2, chans st2 !! 4096)
  end.

(** The [count] of every logged [write], in order. *)
Definition offered_count (e : event) : list Z :=
  match e with
  | Ev c _ =>
    match c with
    | sys_write _ _ count => [count]
    | _ => []
    end
  end.

Definition offered_counts (log : list event) : list Z :=
  flat_map offered_count log.

(** Buffers for the relay examples. *)
Definition five_bytes : list byte :=
  [Byte.x01; Byte.x02; Byte.x03; Byte.x04; Byte.x05].

Definition five_zeros : list byte := repeat Byte.x00 5.

(** Calls made while searching the keychain. *)
Definition is_lookup_call (T : Type) (c : call T) : bool :=
  match c with
  | SecIdentitySearchCreate _ _ | SecIdentitySearchCopyNext _
  | SecIdentityCopyCertificate _ | SecCertificateCopyCommonName _
  | CFStringCreateWithCString _ | CFStringCompare _ _ _ | CFRelease _
  | g_warning _ _ => true
  | _ => false
  end.

(** Calls a live channel makes on behalf of its caller. *)
Definition is_session_call (T : Type) (c : call T) : bool :=
  match c with
  | sys_select _ _ _ | g_warning _ _ | CFRelease _
  | SSLHandshake _ | SSLCopyPeerTrust _ | SecTrustEvaluate _
  | irssibridge_present_trust_panel _ | SSLRead _ _ | SSLWrite _ _ _
  | funcs_io_seek _ _ _ _ | funcs_io_close _ _ | funcs_io_create_watch _ _ _
  | funcs_io_set_flags _ _ _ | funcs_io_get_flags _ _ => true
  | _ => false
  end.

(** The structure a successful [irssi_ssl_get_iochannel] leaves behind. *)
Definition opened_channel (fdv : Z) (handle ctx : ptr) (verify : bool)
    (hostname : option string) : GIOSSLChannel :=
  mkGIOSSLChannel (mkGIOChannel ref_irssi_ssl_channel_funcs true true false)
    fdv handle ctx verify hostname.

(** ** Loop invariants of the relay *)

(** What a run of the write loop entered at offset [len] guarantees. *)
Definition write_loop_post {W : Type} (fd : Z) (data : list byte)
    (dataLength : Z) (fuel : nat) (len : Z) (st : St W)
    (res : outcome (OSStatus * Z) * St W * list event) : Prop :=
  match res with
  | (out, st', log) =>
    chans st' = chans st /\
    Forall (fun e => chunk_bounded fd 4096 e = true) log /\
    match out with
    | Done (status, n) =>
        (status = noErr /\ n = dataLength /\ raw_failures log = [] /\
         take (Z.to_nat len) data ++ wire log
         = take (Z.to_nat dataLength) data) \/
        (status = errSSLWouldBlock /\ len <= n < dataLength /\
         raw_failures log = [EAGAIN] /\
         take (Z.to_nat len) data ++ wire log = take (Z.to_nat n) data) \/
        (status = errSSLInternal /\ n = dataLength /\
         exists e, raw_failures log = [e] /\ e <> EAGAIN)
    | Halt OutOfFuel =>
        length log = fuel /\ raw_failures log = [] /\
        len + Z.of_nat (length (wire log)) < dataLength
    | Halt _ => False
    end
  end.

(** What a run of the read loop entered at offset [len] guarantees. *)
Definition read_loop_post {W : Type} (fd dataLength : Z) (fuel : nat)
    (data : list byte) (len : Z) (st : St W)
    (res : outcome (OSStatus * list byte * Z) * St W * list event) : Prop :=
  match res with
  | (out, st', log) =>
    chans st' = chans st /\
    Forall (fun e => read_from fd e = true) log /\
    match out with
    | Done (status, data', n) =>
        let m := (Z.to_nat len + length (delivered log))%nat in
        (length data' = length data /\
         take m data' = take (Z.to_nat len) data ++ delivered log /\
         drop m data' = drop m data) /\
        ((status = noErr /\ n = dataLength /\ n = Z.of_nat m /\
          raw_failures log = []) \/
         (status = errSSLWouldBlock /\ n < dataLength /\ n = Z.of_nat m /\
          raw_failures log = [EAGAIN]) \/
         (status = errSSLInternal /\ n = dataLength /\
          exists e, raw_failures log = [e] /\ e <> EAGAIN))
    | Halt OutOfFuel =>
        length log = fuel /\ raw_failures log = [] /\
        len + Z.of_nat (length (delivered log)) < dataLength
    | Halt _ => False
    end
  end.

(** ** Further observations and worlds *)

(** The references handed to [CFRelease], in order. *)
Definition release_of (e : event) : list ptr :=
  match e with
  | Ev c _ =>
    match c with
    | CFRelease cf => [cf]
    | _ => []
    end
  end.

Definition releases (log : list event) : list ptr := flat_map release_of log.

(** The trust objects that [SSLCopyPeerTrust] handed out with [noErr]. *)
Definition copied_trust_of (e : event) : list ptr :=
  match e with
  | Ev c r =>
    match c in call T return T -> list ptr with
    | SSLCopyPeerTrust _ => fun r => if fst r =? noErr then [snd r] else []
    | _ => fun _ => []
    end r
  end.

Definition copied_trusts (log : list event) : list ptr :=
  flat_map copied_trust_of log.

(** Handshake steps of the engine that returned [noErr]. *)
Definition completed_steps (log : list event) : list (ptr * OSStatus) :=
  List.filter (fun p => snd p =? noErr) (handshake_steps log).


(** Calls that give a resource back: the context, the raw channel, the
    channel structure. *)
Definition is_teardown_call (T : Type) (c : call T) : bool :=
  match c with
  | SSLDisposeContext _ | g_io_channel_unref _ | g_free _ => true
  | _ => false
  end.

(** The warning with which the constructor reports that the identity could
    not be installed. *)
Definition is_install_failure (T : Type) (c : call T) : bool :=
  match c with
  | g_warning fmt _ =>
      String.eqb fmt "Failed to set certificate for SSL connection. %d"
  | _ => false
  end.

(** Results of the common-name comparisons of the keychain lookup. *)
Definition name_comparison_of (e : event) : list Z :=
  match e with
  | Ev c r =>
    match c in call T return T -> list Z with
    | CFStringCompare _ _ _ => fun r => [r]
    | _ => fun _ => []
    end r
  end.

Definition name_comparisons (log : list event) : list Z :=
  flat_map name_comparison_of log.

(** Answers of [SecIdentitySearchCopyNext]. *)
Definition identity_offer_of (e : event) : list (OSStatus * ptr) :=
  match e with
  | Ev c r =>
    match c in call T return T -> list (OSStatus * ptr) with
    | SecIdentitySearchCopyNext _ => fun r => [r]
    | _ => fun _ => []
    end r
  end.

Definition identity_offers (log : list event) : list (OSStatus * ptr) :=
  flat_map identity_offer_of log.

(** A raw descriptor on which every successful transfer of a non-empty
    request moves at least one byte. *)
Definition read_makes_progress {W : Type}
    (handler : forall T : Type, call T -> W -> T * W) : Prop :=
  forall w fd count,
    0 < count -> rd_ret (fst (handler _ (sys_read fd count) w)) <> 0.

Definition write_makes_progress {W : Type}
    (handler : forall T : Type, call T -> W -> T * W) : Prop :=
  forall w fd buf count,
    0 < count -> sys_ret (fst (handler _ (sys_write fd buf count) w)) <> 0.

(** A raw descriptor that takes or gives two bytes per call and fails with
    EPIPE (32) on its second call. *)
Definition failing_handler (T : Type) (c : call T) (w : nat) : T * nat :=
  match c in call T0 return T0 * nat with
  | sys_write _ _ count =>
      (if Nat.eqb w 1 then mkSysReply (-1) 32
       else mkSysReply (Z.min count 2) 0, S w)
  | sys_read _ count =>
      (if Nat.eqb w 1 then mkReadReply (-1) 32 []
       else mkReadReply (Z.min count 2) 0
              (repeat Byte.x2a (Z.to_nat (Z.min count 2))), S w)
  | c' => (quiet_reply _ c', w)
  end.

(** Calls of the keychain lookup, its two warnings included and no other
    message. *)
Definition is_keychain_call (T : Type) (c : call T) : bool :=
  match c with
  | SecIdentitySearchCreate _ _ | SecIdentitySearchCopyNext _
  | SecIdentityCopyCertificate _ | SecCertificateCopyCommonName _
  | CFStringCreateWithCString _ | CFStringCompare _ _ _ | CFRelease _ => true
  | g_warning fmt args => is_lookup_failure _ (g_warning fmt args)
  | _ => false
  end.

(** The quiet world with the raw channel's descriptor chosen. *)
Definition descriptor_handler (fdv : Z) (T : Type) (c : call T) (w : unit)
    : T * unit :=
  match c in call T0 return T0 * unit with
  | g_io_channel_unix_get_fd _ => (fdv, w)
  | c' => (quiet_reply _ c', w)
  end.

(** A logged step of the keychain search asks the search [searchRef] for
    the next identity, or compares a common name with [nameRef] under no
    options. *)
Definition lookup_step_uses (searchRef nameRef : ptr) (e : event) : bool :=
  match e with
  | Ev c _ =>
    match c with
    | SecIdentitySearchCopyNext s => s =? searchRef
    | CFStringCompare _ s2 opts => (s2 =? nameRef) && (opts =? 0)
    | SecIdentitySearchCreate _ _ | CFStringCreateWithCString _
    | g_warning _ _ => false
    | _ => true
    end
  end.

(** A keychain with three identities named differently from what is asked
    for, a fourth that matches, and more behind it (the world counts the
    identities handed out; identity [n] is at address [100 + n]). *)
Definition fourth_matches_handler (T : Type) (c : call T) (w : nat)
    : T * nat :=
  match c in call T0 return T0 * nat with
  | SecIdentitySearchCopyNext _ => ((noErr, 100 + Z.of_nat w), S w)
  | CFStringCompare _ _ _ =>
      (if Nat.eqb w 4 then kCFCompareEqualTo else 1, w)
  | c' => (quiet_reply _ c', w)
  end.

(** * Properties *)

(** ** Arithmetic and log algebra *)

Lemma to_size_t_small z : 0 <= z < SIZE_MOD -> to_size_t z = z.
Proof. intros H. unfold to_size_t. apply Z.mod_small; exact H. Qed.

Lemma to_size_t_minus_one : to_size_t (-1) = SIZE_MOD - 1.
Proof. reflexivity. Qed.


Lemma count_calls_app p l1 l2 :
  count_calls p (l1 ++ l2) = (count_calls p l1 + count_calls p l2)%nat.
Proof.
  unfold count_calls. rewrite List.filter_app, length_app. reflexivity.
Qed.

Lemma count_calls_cons p e l :
  count_calls p (e :: l)
  = ((if event_is p e then 1 else 0) + count_calls p l)%nat.
Proof. unfold count_calls. simpl. destruct (event_is p e); reflexivity. Qed.

(** A log made only of calls of kind [q] holds no call of a kind [p]
    disjoint from [q]. *)
Lemma count_calls_disjoint (p q : forall T : Type, call T -> bool) log :
  (forall T (c : call T), q T c = true -> p T c = false) ->
  Forall (fun e => event_is q e = true) log ->
  count_calls p log = 0%nat.
Proof.
  intros Hpq Hall. induction Hall as [|e l He _ IH]; [reflexivity|].
  rewrite count_calls_cons, IH. destruct e as [T c r]. simpl in *.
  rewrite (Hpq T c He). reflexivity.
Qed.






Lemma poke_length (data : list byte) off bs :
  (Z.to_nat off + length bs <= length data)%nat ->
  length (poke data off bs) = length data.
Proof.
  intros H. unfold poke.
  rewrite !length_app, length_take, length_drop. lia.
Qed.

Lemma poke_take (data : list byte) off bs :
  (Z.to_nat off + length bs <= length data)%nat ->
  take (Z.to_nat off + length bs) (poke data off bs)
  = take (Z.to_nat off) data ++ bs.
Proof.
  intros H. unfold poke. rewrite app_assoc.
  apply take_app_length'.
  rewrite length_app, length_take. lia.
Qed.

Lemma poke_drop (data : list byte) off bs k :
  (Z.to_nat off + length bs <= k)%nat ->
  (Z.to_nat off + length bs <= length data)%nat ->
  drop k (poke data off bs) = drop k data.
Proof.
  intros Hk H. unfold poke. rewrite app_assoc.
  rewrite drop_app_ge by (rewrite length_app, length_take; lia).
  rewrite length_app, length_take, drop_drop.
  f_equal. lia.
Qed.

(** ** Inversion of runs *)

Section Exec.
Context {W : Type}.
Variable handler : forall T : Type, call T -> W -> T * W.

Lemma ret_inv {A : Type} (a : A) (s : St W) out st' log :
  ret a s = (out, st', log) -> out = Done a /\ st' = s /\ log = [].
Proof. unfold ret. intros H. inversion H. auto. Qed.

Lemma stop_inv {A : Type} (h : halt) (s : St W) (out : outcome A) st' log :
  stop h s = (out, st', log) -> out = Halt h /\ st' = s /\ log = [].
Proof. unfold stop. intros H. inversion H. auto. Qed.

Lemma bind_inv {A B : Type} (m : M W A) (k : A -> M W B) s out st' log :
  bind m k s = (out, st', log) ->
  (exists a s1 l1 l2,
      m s = (Done a, s1, l1) /\ k a s1 = (out, st', l2) /\ log = l1 ++ l2)
  \/ (exists h, m s = (Halt h, st', log) /\ out = Halt h).
Proof.
  unfold bind. destruct (m s) as [[[a|h] s1] l1].
  - destruct (k a s1) as [[o s2] l2] eqn:Ek. intros H. inversion H; subst.
    left. exists a, s1, l1, l2. auto.
  - intros H. inversion H; subst. right. exists h. auto.
Qed.

Lemma bind_ext_inv {T B : Type} (c : call T) (k : T -> M W B)
    s out st' log :
  bind (ext handler c) k s = (out, st', log) ->
  exists r w l,
    handler T c (env s) = (r, w) /\
    k r (mkSt w (chans s)) = (out, st', l) /\ log = Ev c r :: l.
Proof.
  unfold bind, ext. destruct (handler T c (env s)) as [r w].
  destruct (k r (mkSt w (chans s))) as [[o s2] l2] eqn:Ek.
  intros H. inversion H; subst. exists r, w, l2. auto.
Qed.

Lemma ext_inv {T : Type} (c : call T) s out st' log :
  ext handler c s = (out, st', log) ->
  exists r w,
    handler T c (env s) = (r, w) /\
    out = Done r /\ st' = mkSt w (chans s) /\ log = [Ev c r].
Proof.
  unfold ext. destruct (handler T c (env s)) as [r w].
  intros H. inversion H; subst. exists r, w. auto.
Qed.

Lemma bind_deref_inv {B : Type} (h : ptr) (k : GIOSSLChannel -> M W B)
    s out st' log ch :
  chans s !! h = Some ch ->
  bind (deref h) k s = (out, st', log) -> k ch s = (out, st', log).
Proof.
  unfold bind, deref. intros ->.
  destruct (k ch s) as [[o s2] l2]. simpl. auto.
Qed.

Lemma bind_store_inv {B : Type} (p : ptr) (ch : GIOSSLChannel)
    (k : unit -> M W B) s out st' log :
  bind (store p ch) k s = (out, st', log) ->
  k tt (mkSt (env s) (<[p := ch]> (chans s))) = (out, st', log).
Proof.
  unfold bind, store.
  destruct (k tt _) as [[o s2] l2]. simpl. auto.
Qed.

Lemma bind_ret_inv {A B : Type} (a : A) (k : A -> M W B) s out st' log :
  bind (ret a) k s = (out, st', log) -> k a s = (out, st', log).
Proof.
  unfold bind, ret. destruct (k a s) as [[o s2] l2]. simpl. auto.
Qed.

Lemma bind_fatal_inv {B : Type} fmt args (k : unit -> M W B)
    s out st' log :
  bind (fatal handler fmt args) k s = (out, st', log) ->
  exists w,
    (handler bool (g_error fmt args) (env s) = (true, w) /\
     exists l, k tt (mkSt w (chans s)) = (out, st', l) /\
               log = Ev (g_error fmt args) true :: l)
    \/ (handler bool (g_error fmt args) (env s) = (false, w) /\
        out = Halt Aborted /\ st' = mkSt w (chans s) /\
        log = [Ev (g_error fmt args) false]).
Proof.
  unfold fatal, bind, ext, ret, stop.
  destruct (handler bool (g_error fmt args) (env s)) as [[|] w]; simpl.
  - destruct (k tt _) as [[o s2] l2] eqn:Ek. intros H; inversion H; subst.
    exists w. left. split; auto. exists l2. auto.
  - intros H; inversion H; subst. exists w. right. auto.
Qed.

End Exec.

(** Symbolic execution of the run recorded in hypothesis [H]: one external
    call, branch or return at a time. *)
Ltac settle_outcome Ho :=
  try discriminate Ho; try (injection Ho as Ho); subst.

Ltac exec_step H :=
  cbv beta in H;
  lazymatch type of H with
  | bind (ext _ _) _ _ = _ =>
      let r := fresh "r" in
      let w := fresh "w" in
      let l := fresh "l" in
      let E := fresh "Ecall" in
      let Hl := fresh "Hlog" in
      apply bind_ext_inv in H; destruct H as (r & w & l & E & H & Hl);
      try subst
  | bind (fatal _ _ _) _ _ = _ =>
      let w := fresh "w" in
      let l := fresh "l" in
      let E := fresh "Ecall" in
      let Ho := fresh "Ho" in
      let Hs := fresh "Hs" in
      let Hl := fresh "Hl" in
      apply bind_fatal_inv in H;
      destruct H as (w & [(E & l & H & Hl) | (E & Ho & Hs & Hl)]);
      [ try subst | settle_outcome Ho ]
  | bind (store _ _) _ _ = _ =>
      apply bind_store_inv in H; cbn [env chans] in H
  | bind (ret _) _ _ = _ => apply bind_ret_inv in H
  | bind (if ?b then _ else _) _ _ = _ =>
      let E := fresh "Eb" in destruct b eqn:E
  | ext _ _ _ = _ =>
      let r := fresh "r" in
      let w := fresh "w" in
      let E := fresh "Ecall" in
      let Ho := fresh "Ho" in
      let Hs := fresh "Hs" in
      let Hl := fresh "Hl" in
      apply ext_inv in H; destruct H as (r & w & E & Ho & Hs & Hl);
      settle_outcome Ho
  | ret _ _ = _ =>
      let Ho := fresh "Ho" in
      let Hs := fresh "Hs" in
      let Hl := fresh "Hl" in
      apply ret_inv in H; destruct H as (Ho & Hs & Hl);
      settle_outcome Ho
  | stop _ _ = _ =>
      let Ho := fresh "Ho" in
      let Hs := fresh "Hs" in
      let Hl := fresh "Hl" in
      apply stop_inv in H; destruct H as (Ho & Hs & Hl);
      settle_outcome Ho
  | (if ?b then _ else _) _ = _ =>
      let E := fresh "Eb" in destruct b eqn:E
  | (match ?x with (_, _) => _ end) _ = _ => destruct x
  | (let (_, _) := ?x in _) _ = _ => destruct x
  end.

Ltac exec H := repeat exec_step H.

(** Boolean tests of the source turned into facts. *)
Ltac eqb_facts :=
  repeat match goal with
  | H : negb _ = true |- _ => apply negb_true_iff in H
  | H : negb _ = false |- _ => apply negb_false_iff in H
  | H : (_ =? _) = true |- _ => apply Z.eqb_eq in H
  | H : (_ =? _) = false |- _ => apply Z.eqb_neq in H
  | H : (_ <? _) = true |- _ => apply Z.ltb_lt in H
  | H : (_ <? _) = false |- _ => apply Z.ltb_ge in H
  end.

Ltac unit_replies :=
  repeat match goal with
  | r : unit |- _ => destruct r
  end.

Ltac forall_events :=
  repeat first
    [ apply Forall_nil_2
    | apply Forall_cons_2; [reflexivity|]
    | apply Forall_app_2
    | assumption ].

Ltac use_sublog_counts :=
  repeat match goal with
  | H : count_calls _ ?l = 0%nat |- context [count_calls _ ?l] => rewrite H
  | H : forall x, count_calls _ ?l = 0%nat |- context [count_calls _ ?l] =>
      rewrite H
  end.


Ltac no_lookup_failure :=
  let H := fresh "Hpos" in
  intros H; exfalso; revert H;
  rewrite ?count_calls_cons, ?count_calls_app; use_sublog_counts;
  vm_compute; lia.



(** ** The byte relay *)

Section RelayWrite.
Context {W : Type}.
Variable handler : forall T : Type, call T -> W -> T * W.
Hypothesis Hposix : posix_write_ok handler.
Variables (fd : Z) (data : list byte) (dataLength : Z).
Hypothesis Hlen : dataLength <= Z.of_nat (length data).
Hypothesis Hsize : dataLength < SIZE_MOD.

Lemma write_loop_inv fuel :
  forall len st, 0 <= len <= dataLength ->
    write_loop_post fd data dataLength fuel len st
      (SSLWriteFunction_loop handler fuel fd data dataLength len st).
Proof.
  induction fuel as [|fuel IH]; intros len st Hr.
  { simpl. destruct (len <? dataLength) eqn:E.
    + apply Z.ltb_lt in E. cbn. repeat split; auto. lia.
    + apply Z.ltb_ge in E. cbn. repeat split; auto.
      left. assert (len = dataLength) by lia. subst len.
      repeat split; auto. rewrite app_nil_r. reflexivity. }
  simpl. destruct (len <? dataLength) eqn:E.
  2:{ apply Z.ltb_ge in E. cbn. repeat split; auto.
      left. assert (len = dataLength) by lia. subst len.
      repeat split; auto. rewrite app_nil_r. reflexivity. }
  apply Z.ltb_lt in E.
  set (chunk := if dataLength - len <? 4096 then dataLength - len else 4096).
  assert (Hchunk : 0 < chunk <= 4096 /\ chunk <= dataLength - len).
  { unfold chunk. destruct (dataLength - len <? 4096) eqn:E2;
      [apply Z.ltb_lt in E2 | apply Z.ltb_ge in E2]; lia. }
  unfold bind at 1. unfold ext at 1.
  pose proof (Hposix (env st) fd (peek data len chunk) chunk ltac:(lia))
    as Hp.
  destruct (handler sys_reply (sys_write fd (peek data len chunk) chunk)
              (env st)) as [r w] eqn:Eh.
  simpl in Hp.
  assert (Hoffer : chunk_bounded fd 4096
                     (Ev (sys_write fd (peek data len chunk) chunk) r)
                   = true).
  { simpl. rewrite Z.eqb_refl. simpl.
    unfold peek. rewrite length_take, length_drop.
    apply andb_true_intro; split; [apply Z.leb_le; lia|].
    apply Z.eqb_eq. lia. }
  destruct Hp as [Hfail | Hok].
  - (* the write failed *)
    destruct r as [rret rerr]; simpl in *; subst rret.
    rewrite Z.eqb_refl.
    destruct (rerr =? EAGAIN) eqn:Eerr.
    + apply Z.eqb_eq in Eerr; subst rerr. cbn.
      split; [reflexivity|]. split.
      { constructor; [exact Hoffer|constructor]. }
      right; left. repeat split; auto; try lia.
      rewrite app_nil_r. reflexivity.
    + apply Z.eqb_neq in Eerr.
      unfold bind, ext, ret; simpl.
      destruct (handler () (g_warning "write returned %d" [LInt rerr]) w)
        as [u w'] eqn:Ew.
      cbn. split; [reflexivity|]. split.
      { constructor; [exact Hoffer|constructor; [reflexivity|constructor]]. }
      right; right. repeat split; auto. exists rerr. split; auto.
  - (* the write accepted [rret] bytes *)
    destruct r as [rret rerr]; simpl in *.
    assert (HSM : SIZE_MOD = 18446744073709551616) by reflexivity.
    rewrite (to_size_t_small rret) by lia.
    rewrite to_size_t_minus_one.
    destruct (rret =? SIZE_MOD - 1) eqn:Em1;
      [apply Z.eqb_eq in Em1; lia|].
    rewrite (to_size_t_small (len + rret)) by lia.
    specialize (IH (len + rret) {| env := w; chans := chans st |}).
    destruct (SSLWriteFunction_loop handler fuel fd data dataLength
                (len + rret) {| env := w; chans := chans st |})
      as [[out st'] log] eqn:Eloop.
    assert (Hr' : 0 <= len + rret <= dataLength) by lia.
    specialize (IH Hr'). cbn in IH. destruct IH as (Hch & Hall & Hout).
    cbn. split; [exact Hch|]. split.
    { constructor; [exact Hoffer|exact Hall]. }
    assert (Hstep : take (Z.to_nat len) data
                      ++ take (Z.to_nat rret) (peek data len chunk)
                    = take (Z.to_nat (len + rret)) data).
    { unfold peek. rewrite take_take.
      rewrite Nat.min_l by lia.
      rewrite take_take_drop. f_equal. lia. }
    assert (Hneg : (rret <? 0) = false) by (apply Z.ltb_ge; lia).
    rewrite Hneg.
    change (flat_map failure_of log) with (raw_failures log).
    change (flat_map sent_by log) with (wire log).
    destruct out as [[status n]|h].
    + destruct Hout as [(Hs & Hn & Hf & Hw)
                       | [(Hs & Hn & Hf & Hw) | (Hs & Hn & e & Hf & He)]].
      * left. repeat split; auto.
        rewrite app_assoc, Hstep. exact Hw.
      * right; left. repeat split; auto; try lia.
        rewrite app_assoc, Hstep. exact Hw.
      * right; right. repeat split; auto. exists e. split; auto.
    + destruct h; try contradiction.
      destruct Hout as (Hl & Hf & Hw). repeat split.
      * simpl. f_equal. exact Hl.
      * exact Hf.
      * rewrite length_app. rewrite length_take.
        unfold peek. rewrite length_take, length_drop. lia.
Qed.

End RelayWrite.

Section RelayRead.
Context {W : Type}.
Variable handler : forall T : Type, call T -> W -> T * W.
Hypothesis Hposix : posix_read_ok handler.
Variables (fd : Z) (dataLength : Z).
Hypothesis Hsize : dataLength < SIZE_MOD.

Lemma read_loop_inv fuel :
  forall data len st,
    0 <= len <= dataLength ->
    dataLength <= Z.of_nat (length data) ->
    read_loop_post fd dataLength fuel data len st
      (SSLReadFunction_loop handler fuel fd data dataLength len st).
Proof.
  assert (Hbase : forall fuel0 data len st, 0 <= len <= dataLength ->
            dataLength <= Z.of_nat (length data) ->
            (len <? dataLength) = false ->
            read_loop_post fd dataLength fuel0 data len st
              (ret (W := W) (noErr, data, len) st)).
  { intros fuel0 data len st Hr Hd E. apply Z.ltb_ge in E. cbn.
    split; [reflexivity|]. split; [constructor|].
    rewrite Nat.add_0_r, app_nil_r. split; [auto|].
    left. repeat split; auto; lia. }
  induction fuel as [|fuel IH]; intros data len st Hr Hd.
  { simpl. destruct (len <? dataLength) eqn:E; [|apply Hbase; auto].
    apply Z.ltb_lt in E. cbn. repeat split; auto. lia. }
  simpl. destruct (len <? dataLength) eqn:E; [|apply Hbase; auto].
  apply Z.ltb_lt in E.
  unfold bind at 1. unfold ext at 1.
  pose proof (Hposix (env st) fd (dataLength - len) ltac:(lia)) as Hp.
  destruct (handler read_reply (sys_read fd (dataLength - len)) (env st))
    as [r w] eqn:Eh.
  simpl in Hp.
  destruct r as [rret rerr rbytes]; simpl in *.
  destruct Hp as [Hfail | (Hok & Hss & Hbytes)].
  - (* the read failed *)
    subst rret. rewrite Z.eqb_refl.
    destruct (rerr =? EAGAIN) eqn:Eerr.
    + apply Z.eqb_eq in Eerr; subst rerr. cbn.
      split; [reflexivity|]. split.
      { constructor; [|constructor]. simpl. apply Z.eqb_refl. }
      rewrite Nat.add_0_r, app_nil_r. split; [auto|].
      right; left. repeat split; auto; lia.
    + apply Z.eqb_neq in Eerr.
      unfold bind, ext, ret; simpl.
      destruct (handler () (g_warning "read returned %d" [LInt rerr]) w)
        as [u w'] eqn:Ew.
      cbn. split; [reflexivity|]. split.
      { constructor; [|constructor; [reflexivity|constructor]]. simpl.
        apply Z.eqb_refl. }
      rewrite Nat.add_0_r, app_nil_r. split; [auto|].
      right; right. repeat split; auto. exists rerr. split; auto.
  - (* the read delivered [rbytes] *)
    assert (HSM : SIZE_MOD = 18446744073709551616) by reflexivity.
    rewrite (to_size_t_small rret) by lia.
    rewrite to_size_t_minus_one.
    destruct (rret =? SIZE_MOD - 1) eqn:Em1; [apply Z.eqb_eq in Em1; lia|].
    rewrite (to_size_t_small (len + rret)) by lia.
    assert (Hfit : (Z.to_nat len + length rbytes <= length data)%nat) by lia.
    specialize (IH (poke data len rbytes) (len + rret)
                   {| env := w; chans := chans st |}).
    destruct (SSLReadFunction_loop handler fuel fd (poke data len rbytes)
                dataLength (len + rret) {| env := w; chans := chans st |})
      as [[out st'] log] eqn:Eloop.
    assert (Hr' : 0 <= len + rret <= dataLength) by lia.
    assert (Hd' : dataLength <= Z.of_nat (length (poke data len rbytes))).
    { rewrite poke_length by exact Hfit. exact Hd. }
    specialize (IH Hr' Hd'). cbn in IH. destruct IH as (Hch & Hall & Hout).
    cbn. split; [exact Hch|]. split.
    { constructor; [|exact Hall]. simpl. apply Z.eqb_refl. }
    assert (Hneg : (rret <? 0) = false) by (apply Z.ltb_ge; lia).
    rewrite Hneg.
    change (flat_map failure_of log) with (raw_failures log).
    change (flat_map received_by log) with (delivered log).
    assert (Hidx : Z.to_nat (len + rret)
                   = (Z.to_nat len + length rbytes)%nat) by lia.
    destruct out as [[[status data'] n]|h].
    + destruct Hout as ((Hlen' & Htake & Hdrop) & Hcases).
      rewrite Hidx in *.
      rewrite poke_length in Hlen' by exact Hfit.
      rewrite poke_take in Htake by exact Hfit.
      rewrite poke_drop in Hdrop by (try exact Hfit; lia).
      rewrite length_app. simpl.
      rewrite Nat.add_assoc. rewrite <- app_assoc in Htake.
      split; [auto|].
      destruct Hcases as [(Hs & Hn & Hm & Hf)
                         | [(Hs & Hn & Hm & Hf) | (Hs & Hn & e & Hf & He)]].
      * left. repeat split; auto.
      * right; left. repeat split; auto.
      * right; right. repeat split; auto. exists e. split; auto.
    + destruct h; try contradiction.
      destruct Hout as (Hl & Hf & Hw). repeat split.
      * simpl. f_equal. exact Hl.
      * exact Hf.
      * rewrite length_app. lia.
Qed.

End RelayRead.


(** The trickling descriptor keeps the POSIX promises. *)
Lemma trickle_posix_write_ok : posix_write_ok trickle_handler.
Proof.
  intros w fd buf count Hc. simpl. destruct (Nat.eqb w 2); simpl; lia.
Defined.

Lemma trickle_posix_read_ok : posix_read_ok trickle_handler.
Proof.
  intros w fd count Hc. simpl. destruct (Nat.eqb w 2); simpl; [lia|].
  right. rewrite repeat_length. lia.
Defined.


(** The same run, computed, and its resumption: the first call blocks
    after four bytes, the second sends the fifth, and the wire holds the
    buffer once. *)
Example relay_write_trickle_run :
  let '(out1, st1, log1) :=
    _SSLWriteFunction trickle_handler 10 4096 five_bytes 5
      (live_state 0%nat) in
  let '(out2, _, log2) :=
    _SSLWriteFunction trickle_handler 10 4096 (drop 4 five_bytes) 1 st1 in
  out1 = Done (errSSLWouldBlock, 4) /\
  wire log1 = [Byte.x01; Byte.x02; Byte.x03; Byte.x04] /\
  out2 = Done (noErr, 1) /\
  wire (log1 ++ log2) = five_bytes.
Proof. repeat split; reflexivity. Qed.

(** Five thousand bytes to a descriptor that takes all it is offered go
    out as one chunk of 4096 and one of 904. *)
Example relay_write_chunks_of_4096 :
  let '(out, _, log) :=
    _SSLWriteFunction quiet_handler 10 4096 (repeat Byte.x2a 5000) 5000
      (live_state tt) in
  out = Done (noErr, 5000) /\ offered_counts log = [4096; 904].
Proof. vm_compute. split; reflexivity. Qed.



(** The same run, computed: four bytes arrive, [errSSLWouldBlock] reports
    four, and the fifth byte of the buffer is as it was. *)
Example relay_read_trickle_run :
  fst (fst (_SSLReadFunction trickle_handler 10 4096 five_zeros 5
              (live_state 0%nat)))
  = Done (errSSLWouldBlock,
          [Byte.x2a; Byte.x2a; Byte.x2a; Byte.x2a; Byte.x00], 4).
Proof. reflexivity. Qed.

(** C5.  The claim that [_SSLReadFunction] returns for every behaviour of
    the raw descriptor fails on the code: with the descriptor at end of
    stream every [read] returns 0 with no error, [len] never grows, and the
    loop asks again for ever.  Whatever the fuel, a request for one byte
    runs out of it, having done nothing but zero-byte reads. *)
Theorem relay_read_spins_at_end_of_stream :
  forall fuel : nat,
    _SSLReadFunction quiet_handler fuel 4096 [Byte.x00] 1 (live_state tt)
    = (Halt OutOfFuel, live_state tt,
       repeat (Ev (sys_read 3 1) (mkReadReply 0 0 [])) fuel).
Proof.
  intros fuel.
  unfold _SSLReadFunction, bind, deref.
  change (chans (live_state tt) !! 4096) with (Some live_channel).
  cbv beta iota.
  change (fd live_channel) with 3.
  assert (Hloop : forall st : St unit,
            st = live_state tt ->
            SSLReadFunction_loop quiet_handler fuel 3 [Byte.x00] 1 0 st
            = (Halt OutOfFuel, st,
               repeat (Ev (sys_read 3 1) (mkReadReply 0 0 [])) fuel)).
  { induction fuel as [|fuel IH]; intros st Hst.
    - reflexivity.
    - subst st.
      change (SSLReadFunction_loop quiet_handler (S fuel) 3 [Byte.x00] 1 0
                (live_state tt))
        with (let '(o, s2, l2) :=
                SSLReadFunction_loop quiet_handler fuel 3 [Byte.x00] 1 0
                  (live_state tt) in
              (o, s2, Ev (sys_read 3 1) (mkReadReply 0 0 []) :: l2)).
      rewrite (IH (live_state tt) eq_refl). reflexivity. }
  rewrite (Hloop _ eq_refl). reflexivity.
Qed.

(** ** The handshake driver *)

(** C2.  Every call of [irssi_ssl_handshake] on a live channel begins with
    [select] on the channel's descriptor alone, in the write set, with a
    zero timeout; nothing precedes it.  If [select] reports fewer than one
    ready descriptor, no call into the crypto engine is made during the
    invocation; the result is 3, a come-back-later code, when [select]
    returned 0 (or failed with EAGAIN), and -1 on any other [select]
    failure. *)
Theorem handshake_probes_descriptor_first :
  forall (W : Type) (handler : forall T : Type, call T -> W -> T * W)
         (st : St W) (handle : ptr) (ch : GIOSSLChannel),
    chans st !! handle = Some ch ->
    match irssi_ssl_handshake handler handle st with
    | (out, _, log) =>
        exists (sel : sys_reply) (rest : list event),
          log = Ev (sys_select (fd ch + 1) [fd ch] (0, 0)) sel :: rest /\
          (sys_ret sel < 1 ->
             count_calls is_engine_call log = 0%nat /\
             (sys_ret sel = 0 \/ sys_errno sel = EAGAIN ->
                out = Done 3 /\ handshake_result 3 = InProgress) /\
             (sys_ret sel <> 0 /\ sys_errno sel <> EAGAIN ->
                out = Done (-1)))
    end.
Proof.
  intros W handler st handle ch Hch.
  destruct (irssi_ssl_handshake handler handle st) as [[out st'] log] eqn:Hrun.
  unfold irssi_ssl_handshake in Hrun.
  apply (bind_deref_inv _ _ _ _ _ _ _ Hch) in Hrun.
  exec_step Hrun. exec_step Hrun.
  - exec Hrun.
    + eexists; eexists; split; [reflexivity|]. intros _.
      split; [reflexivity|]. split; [intros _; split; reflexivity|].
      intros [Hn0 Hne]. apply orb_true_iff in Eb0.
      destruct Eb0 as [H|H]; apply Z.eqb_eq in H; contradiction.
    + eexists; eexists; split; [reflexivity|]. intros _.
      split; [reflexivity|]. apply orb_false_iff in Eb0.
      destruct Eb0 as [H1 H2]. apply Z.eqb_neq in H1, H2.
      split; [intros [H|H]; contradiction | intros _; reflexivity].
  - apply Z.ltb_ge in Eb.
    eexists; eexists; split; [reflexivity|]. intros Hlt. lia.
Qed.

(** A descriptor that is not yet writable: the probe, a warning, code 3. *)
Lemma handshake_probes_descriptor_first_witness :
  chans (live_state tt) !! 4096 = Some live_channel /\
  match irssi_ssl_handshake
          (staged_handler (mkSysReply 0 0) noErr kSecTrustResultProceed 0)
          4096 (live_state tt) with
  | (out, _, log) =>
      exists (sel : sys_reply) (rest : list event),
        log = Ev (sys_select (fd live_channel + 1) [fd live_channel] (0, 0))
                sel :: rest /\
        (sys_ret sel < 1 ->
           count_calls is_engine_call log = 0%nat /\
           (sys_ret sel = 0 \/ sys_errno sel = EAGAIN ->
              out = Done 3 /\ handshake_result 3 = InProgress) /\
           (sys_ret sel <> 0 /\ sys_errno sel <> EAGAIN ->
              out = Done (-1)))
  end.
Proof.
  split; [reflexivity|].
  apply (handshake_probes_descriptor_first unit
           (staged_handler (mkSysReply 0 0) noErr kSecTrustResultProceed 0)
           (live_state tt) 4096 live_channel).
  reflexivity.
Defined.


(** A descriptor that is not ready, computed: one probe, one warning, 3. *)
Example handshake_not_ready_run :
  let '(out, _, log) :=
    irssi_ssl_handshake
      (staged_handler (mkSysReply 0 0) noErr kSecTrustResultProceed 0)
      4096 (live_state tt) in
  out = Done 3 /\
  log = [Ev (sys_select 4 [3] (0, 0)) (mkSysReply 0 0);
         Ev (g_warning "select() returned EAGAIN" []) tt].
Proof. split; reflexivity. Qed.


(** The two ends of the trust decision, computed: a validated chain is
    accepted without the panel, a refused one fails the handshake. *)
Example handshake_accepts_validated_chain :
  let '(out, _, log) :=
    irssi_ssl_handshake quiet_handler 4096 (live_state tt) in
  out = Done 0 /\ trust_panels log = [].
Proof. split; reflexivity. Qed.

Example handshake_fails_on_refusal :
  let '(out, _, log) :=
    irssi_ssl_handshake
      (staged_handler (mkSysReply 1 0) noErr kSecTrustResultDeny 0)
      4096 (live_state tt) in
  out = Done (-1) /\ trust_panels log = [(12288, 0)].
Proof. split; reflexivity. Qed.

(** ** Reading and writing *)

(** C6.  [irssi_ssl_read] turns the status of [SSLRead] into: [noErr] to
    NORMAL with the decrypted count; [errSSLWouldBlock] to AGAIN,
    [errSSLClosedGraceful] to EOF and every other status to ERROR, each
    with count 0.  [irssi_ssl_write] does the same with [SSLWrite] except
    that it has no EOF: every status other than [noErr] and
    [errSSLWouldBlock], the graceful close included, gives ERROR with
    count 0. *)
Theorem read_write_status_mapping :
  forall (W : Type) (handler : forall T : Type, call T -> W -> T * W)
         (st : St W) (handle : ptr) (ch : GIOSSLChannel)
         (len : Z) (buf : list byte),
    chans st !! handle = Some ch ->
    match handler _ (SSLRead (context ch) len) (env st) with
    | ((status, processed, bytes), _) =>
        let out := fst (fst (irssi_ssl_read handler handle len st)) in
        (status = noErr ->
           out = Done (G_IO_STATUS_NORMAL, processed, bytes)) /\
        (status = errSSLWouldBlock ->
           out = Done (G_IO_STATUS_AGAIN, 0, bytes)) /\
        (status = errSSLClosedGraceful ->
           out = Done (G_IO_STATUS_EOF, 0, bytes)) /\
        (status <> noErr -> status <> errSSLWouldBlock ->
         status <> errSSLClosedGraceful ->
           out = Done (G_IO_STATUS_ERROR, 0, bytes))
    end /\
    match handler _ (SSLWrite (context ch) buf len) (env st) with
    | ((status, processed), _) =>
        let out := fst (fst (irssi_ssl_write handler handle buf len st)) in
        (status = noErr -> out = Done (G_IO_STATUS_NORMAL, processed)) /\
        (status = errSSLWouldBlock -> out = Done (G_IO_STATUS_AGAIN, 0)) /\
        (status = errSSLClosedGraceful ->
           out = Done (G_IO_STATUS_ERROR, 0)) /\
        (status <> noErr -> status <> errSSLWouldBlock ->
           out = Done (G_IO_STATUS_ERROR, 0))
    end.
Proof.
  intros W handler st handle ch len buf Hch. split.
  - destruct (irssi_ssl_read handler handle len st)
      as [[out st'] log] eqn:Hrun.
    unfold irssi_ssl_read in Hrun.
    apply (bind_deref_inv _ _ _ _ _ _ _ Hch) in Hrun.
    exec_step Hrun. rewrite Ecall.
    destruct r as [[status processed] bytes].
    exec Hrun; eqb_facts; simpl; repeat split; intros; subst;
      try reflexivity; try discriminate; try contradiction.
  - destruct (irssi_ssl_write handler handle buf len st)
      as [[out st'] log] eqn:Hrun.
    unfold irssi_ssl_write in Hrun.
    apply (bind_deref_inv _ _ _ _ _ _ _ Hch) in Hrun.
    exec_step Hrun. rewrite Ecall.
    destruct r as [status processed].
    exec Hrun; eqb_facts; simpl; repeat split; intros; subst;
      try reflexivity; try discriminate; try contradiction.
Qed.

Lemma read_write_status_mapping_witness :
  chans (live_state tt) !! 4096 = Some live_channel /\
  match quiet_handler _ (SSLRead (context live_channel) 5)
          (env (live_state tt)) with
  | ((status, processed, bytes), _) =>
      let out :=
        fst (fst (irssi_ssl_read quiet_handler 4096 5 (live_state tt))) in
      (status = noErr ->
         out = Done (G_IO_STATUS_NORMAL, processed, bytes)) /\
      (status = errSSLWouldBlock ->
         out = Done (G_IO_STATUS_AGAIN, 0, bytes)) /\
      (status = errSSLClosedGraceful ->
         out = Done (G_IO_STATUS_EOF, 0, bytes)) /\
      (status <> noErr -> status <> errSSLWouldBlock ->
       status <> errSSLClosedGraceful ->
         out = Done (G_IO_STATUS_ERROR, 0, bytes))
  end /\
  match quiet_handler _ (SSLWrite (context live_channel) five_bytes 5)
          (env (live_state tt)) with
  | ((status, processed), _) =>
      let out :=
        fst (fst (irssi_ssl_write quiet_handler 4096 five_bytes 5
                    (live_state tt))) in
      (status = noErr -> out = Done (G_IO_STATUS_NORMAL, processed)) /\
      (status = errSSLWouldBlock -> out = Done (G_IO_STATUS_AGAIN, 0)) /\
      (status = errSSLClosedGraceful ->
         out = Done (G_IO_STATUS_ERROR, 0)) /\
      (status <> noErr -> status <> errSSLWouldBlock ->
         out = Done (G_IO_STATUS_ERROR, 0))
  end.
Proof.
  split; [reflexivity|].
  apply (read_write_status_mapping unit quiet_handler (live_state tt) 4096
           live_channel 5 five_bytes).
  reflexivity.
Defined.

(** ** The pass-through operations *)




(** ** Construction *)

Section Keychain.
Context {W : Type}.
Variable handler : forall T : Type, call T -> W -> T * W.

Lemma identity_search_loop_log fuel :
  forall search name id st out st' log,
    identity_search_loop handler fuel search name id st = (out, st', log) ->
    chans st' = chans st /\
    Forall (fun e => event_is is_lookup_call e = true) log /\
    count_calls is_lookup_failure log = 0%nat /\
    match out with
    | Done (discovered, identity) =>
        discovered = NULL \/ discovered = identity
    | Halt h => h = OutOfFuel
    end.
Proof.
  induction fuel as [|fuel IH]; intros search name id st out st' log Hrun.
  - simpl in Hrun. exec Hrun. auto.
  - simpl in Hrun.
    exec Hrun; eqb_facts;
      try (apply IH in Hrun; destruct Hrun as (Hc & Hall & Hcnt & Hout);
           cbn [chans] in Hc);
      repeat split; auto;
      repeat (apply Forall_cons; split; [reflexivity|]); auto.
Qed.

(** The lookup returns NULL exactly when it logged one of its two failure
    warnings; it touches neither the heap of channels nor anything but the
    keychain and the log. *)
Lemma CreateIdentityFromCommonName_log fuel certificate privateKey :
  forall st out st' log,
    CreateIdentityFromCommonName handler fuel certificate privateKey st
      = (out, st', log) ->
    chans st' = chans st /\
    Forall (fun e => event_is is_lookup_call e = true) log /\
    match out with
    | Done identity =>
        (identity = NULL <-> (0 < count_calls is_lookup_failure log)%nat)
    | Halt h => h = OutOfFuel /\ count_calls is_lookup_failure log = 0%nat
    end.
Proof.
  intros st out st' log Hrun. unfold CreateIdentityFromCommonName in Hrun.
  exec Hrun; eqb_facts.
  - repeat split; auto.
  - apply bind_inv in Hrun.
    destruct Hrun as [(a & s1 & l1 & l2 & Hloop & Hrun & ->)
                     | (h & Hloop & ->)];
      apply identity_search_loop_log in Hloop;
      destruct Hloop as (Hc & Hall & Hcnt & Hout); cbn [chans] in Hc.
    + destruct a as [discovered identity].
      exec Hrun; eqb_facts; cbn [chans]; (split; [exact Hc|]);
        (split; [forall_events|]);
        rewrite ?count_calls_cons, ?count_calls_app, Hcnt.
      * split; [|reflexivity]. intros _. vm_compute. lia.
      * destruct Hout as [Hd|Hd]; [contradiction|]. subst identity.
        split; [intros; contradiction | vm_compute; lia].
    + subst h. cbn [chans]. split; [exact Hc|].
      split; [forall_events|].
      rewrite ?count_calls_cons, Hcnt. split; reflexivity.
Qed.


End Keychain.



(** The other credential failure, computed: an identity that is found
    and installed gives a channel; one that is found but refused by
    [SSLSetCertificate] gives NULL, and on this path the new context is
    not disposed of. *)
Example open_with_known_identity :
  let '(out, _, log) :=
    irssi_ssl_get_iochannel (keychain_hit_handler noErr) 10 2048 None
      (Some "me"%string) None None None true (fresh_state tt) in
  out = Done 4096 /\ count_calls (is_dispose_of 8192) log = 0%nat.
Proof. vm_compute. split; reflexivity. Qed.

Example open_with_refused_identity :
  let '(out, st', log) :=
    irssi_ssl_get_iochannel (keychain_hit_handler (-50)) 10 2048 None
      (Some "me"%string) None None None true (fresh_state tt) in
  out = Done NULL /\ chans st' = chans (fresh_state tt) /\
  count_calls is_raw_io log = 0%nat /\
  count_calls (is_dispose_of 8192) log = 0%nat.
Proof. vm_compute. repeat split; reflexivity. Qed.

(** ** Destruction *)

Section Lifecycle.
Context {W : Type}.
Variable handler : forall T : Type, call T -> W -> T * W.

Lemma client_call_log h ch s op :
  forall st out st' log,
    chans st !! h = Some ch ->
    client_call handler h s op st = (out, st', log) ->
    chans st' = chans st /\
    Forall (fun e => event_is is_session_call e = true) log /\
    exists s', out = Done s'.
Proof.
  intros st out st' log Hch Hrun.
  destruct op; simpl in Hrun;
    apply bind_inv in Hrun;
    destruct Hrun as [(a & s1 & l1 & l2 & Hsub & Hrun & ->)
                     | (hh & Hsub & ->)];
    unfold irssi_ssl_handshake, irssi_ssl_read, irssi_ssl_write,
      irssi_ssl_seek, irssi_ssl_close, irssi_ssl_create_watch,
      irssi_ssl_set_flags, irssi_ssl_get_flags in Hsub;
    apply (bind_deref_inv _ _ _ _ _ _ _ Hch) in Hsub;
    exec Hsub; try discriminate;
    try (match goal with H : Done _ = Done _ |- _ => inversion H; subst end);
    exec Hrun; cbn [chans];
    (split; [reflexivity|]); (split; [forall_events|]);
    eexists; reflexivity.
Qed.


End Lifecycle.



(** The four lifecycle states, each reached by a session on the live
    channel and each followed by a destruction that disposes of context
    8192 once, releases raw channel 2048 once and frees the structure. *)
Example destroy_in_each_lifecycle_state :
  destroy_report quiet_handler []
    = (Done Unestablished, 1%nat, 1%nat, None) /\
  destroy_report
      (staged_handler (mkSysReply 0 0) noErr kSecTrustResultProceed 0)
      [do_handshake]
    = (Done Handshaking, 1%nat, 1%nat, None) /\
  destroy_report quiet_handler [do_handshake; do_read 16]
    = (Done LEstablished, 1%nat, 1%nat, None) /\
  destroy_report
      (staged_handler (mkSysReply 1 0) errSSLInternal
         kSecTrustResultProceed 0)
      [do_handshake]
    = (Done LFailed, 1%nat, 1%nat, None).
Proof. repeat split; reflexivity. Qed.

(** ** Configuration that is accepted and ignored *)

(** C10.  The private-key reference, the CA bundle file and the CA
    directory never reach any computation: the keychain lookup, the
    constructor, [net_connect_ip_ssl], and a constructor followed by a
    handshake, a read and a write return the same result, leave the same
    state and log the same calls whatever these three arguments are. *)
Theorem unused_configuration_is_ignored :
  forall (W : Type) (handler : forall T : Type, call T -> W -> T * W)
         (fuel : nat) (st : St W) (handle ip my_ip : ptr) (port len : Z)
         (buf : list byte) (certname : string)
         (hostname mycert : option string) (verify : bool)
         (pkey1 cafile1 capath1 pkey2 cafile2 capath2 : option string),
    CreateIdentityFromCommonName handler fuel certname pkey1 st
      = CreateIdentityFromCommonName handler fuel certname pkey2 st /\
    irssi_ssl_get_iochannel handler fuel handle hostname mycert
        pkey1 cafile1 capath1 verify st
      = irssi_ssl_get_iochannel handler fuel handle hostname mycert
          pkey2 cafile2 capath2 verify st /\
    net_connect_ip_ssl handler fuel ip port hostname my_ip mycert
        pkey1 cafile1 capath1 verify st
      = net_connect_ip_ssl handler fuel ip port hostname my_ip mycert
          pkey2 cafile2 capath2 verify st /\
    open_and_use handler fuel handle hostname mycert pkey1 cafile1 capath1
        verify len buf st
      = open_and_use handler fuel handle hostname mycert pkey2 cafile2 capath2
          verify len buf st.
Proof.
  intros. repeat split; reflexivity.
Qed.

(** * Further properties of the adapter *)

(** Decide the boolean tests recorded by a symbolic execution. *)
Ltac split_tests :=
  repeat match goal with
  | H : negb ?b = _ |- _ => destruct b eqn:?; simpl in H; try discriminate H;
                            clear H
  end.

(** X1.  In every run of [irssi_ssl_handshake] on a live channel the
    references given to [CFRelease] are exactly the trust objects that
    [SSLCopyPeerTrust] handed out with [noErr], in the same order, and the
    peer trust is copied at most once: every path that obtained a trust
    object releases it once before returning, and nothing else is
    released. *)
Theorem handshake_releases_what_it_copied :
  forall (W : Type) (handler : forall T : Type, call T -> W -> T * W)
         (st : St W) (handle : ptr) (ch : GIOSSLChannel),
    chans st !! handle = Some ch ->
    match irssi_ssl_handshake handler handle st with
    | (_, _, log) =>
        releases log = copied_trusts log /\
        (length (peer_trust_copies log) <= 1)%nat
    end.
Proof.
  intros W handler st handle ch Hch.
  destruct (irssi_ssl_handshake handler handle st) as [[out st'] log] eqn:Hrun.
  unfold irssi_ssl_handshake in Hrun.
  apply (bind_deref_inv _ _ _ _ _ _ _ Hch) in Hrun.
  exec Hrun; split_tests; simpl;
    repeat match goal with
    | H : (?a =? ?b) = _ |- context [?a =? ?b] => rewrite H
    end; split; (reflexivity || lia).
Qed.

(** The quiet world: one trust object copied, one released. *)
Lemma handshake_releases_what_it_copied_witness :
  chans (live_state tt) !! 4096 = Some live_channel /\
  match irssi_ssl_handshake quiet_handler 4096 (live_state tt) with
  | (_, _, log) =>
      releases log = copied_trusts log /\
      (length (peer_trust_copies log) <= 1)%nat
  end.
Proof.
  split; [reflexivity|].
  apply (handshake_releases_what_it_copied unit quiet_handler
           (live_state tt) 4096 live_channel).
  reflexivity.
Defined.



(** X3.  [irssi_ssl_handshake] returns 0 only after the engine's step on
    the channel's context answered [noErr], the peer trust of that context
    was copied and evaluated with [noErr], and either the verdict was
    [kSecTrustResultProceed] or [kSecTrustResultUnspecified] and no panel
    was shown, or the verdict was another one and the panel, shown once for
    that trust, was answered with [NSOKButton]. *)
Theorem handshake_established_only_after_acceptance :
  forall (W : Type) (handler : forall T : Type, call T -> W -> T * W)
         (st : St W) (handle : ptr) (ch : GIOSSLChannel),
    chans st !! handle = Some ch ->
    match irssi_ssl_handshake handler handle st with
    | (out, _, log) =>
        out = Done 0 ->
        exists (trust : ptr) (verdict : SecTrustResultType),
          handshake_steps log = [(context ch, noErr)] /\
          peer_trust_copies log = [(context ch, noErr, trust)] /\
          trust_evaluations log = [(trust, noErr, verdict)] /\
          (((verdict = kSecTrustResultProceed \/
             verdict = kSecTrustResultUnspecified) /\
            trust_panels log = []) \/
           (verdict <> kSecTrustResultProceed /\
            verdict <> kSecTrustResultUnspecified /\
            trust_panels log = [(trust, NSOKButton)]))
    end.
Proof.
  intros W handler st handle ch Hch.
  destruct (irssi_ssl_handshake handler handle st) as [[out st'] log] eqn:Hrun.
  unfold irssi_ssl_handshake in Hrun.
  apply (bind_deref_inv _ _ _ _ _ _ _ Hch) in Hrun.
  exec Hrun; eqb_facts; intros Hout; try discriminate Hout; subst.
  - eexists; eexists. simpl. repeat split; try reflexivity.
    left. split; [|reflexivity].
    match goal with
    | H : trust_result_accepted ?v = true |- _ =>
        destruct v; simpl in H; try discriminate H; auto
    end.
  - eexists; eexists. simpl. repeat split; try reflexivity.
    right.
    match goal with
    | H : trust_result_accepted ?v = false |- _ =>
        destruct v; simpl in H; try discriminate H;
        repeat split; try discriminate; reflexivity
    end.
Qed.

(** A recoverable trust failure that the user accepts in the panel. *)
Lemma handshake_established_only_after_acceptance_witness :
  chans (live_state tt) !! 4096 = Some live_channel /\
  fst (fst (irssi_ssl_handshake
              (staged_handler (mkSysReply 1 0) noErr
                 kSecTrustResultRecoverableTrustFailure NSOKButton)
              4096 (live_state tt))) = Done 0 /\
  match irssi_ssl_handshake
          (staged_handler (mkSysReply 1 0) noErr
             kSecTrustResultRecoverableTrustFailure NSOKButton)
          4096 (live_state tt) with
  | (out, _, log) =>
      out = Done 0 ->
      exists (trust : ptr) (verdict : SecTrustResultType),
        handshake_steps log = [(context live_channel, noErr)] /\
        peer_trust_copies log = [(context live_channel, noErr, trust)] /\
        trust_evaluations log = [(trust, noErr, verdict)] /\
        (((verdict = kSecTrustResultProceed \/
           verdict = kSecTrustResultUnspecified) /\
          trust_panels log = []) \/
         (verdict <> kSecTrustResultProceed /\
          verdict <> kSecTrustResultUnspecified /\
          trust_panels log = [(trust, NSOKButton)]))
  end.
Proof.
  split; [reflexivity|].
  split; [reflexivity|].
  apply (handshake_established_only_after_acceptance unit
           (staged_handler (mkSysReply 1 0) noErr
              kSecTrustResultRecoverableTrustFailure NSOKButton)
           (live_state tt) 4096 live_channel).
  reflexivity.
Defined.

Lemma completed_steps_app l1 l2 :
  completed_steps (l1 ++ l2) = completed_steps l1 ++ completed_steps l2.
Proof.
  unfold completed_steps, handshake_steps.
  rewrite flat_map_app, List.filter_app. reflexivity.
Qed.


Section Sessions.
Context {W : Type}.
Variable handler : forall T : Type, call T -> W -> T * W.

Lemma client_call_trust_counts h ch s op :
  forall st out st' log,
    chans st !! h = Some ch ->
    client_call handler h s op st = (out, st', log) ->
    (length (trust_evaluations log) <= length (completed_steps log))%nat /\
    (length (trust_panels log) <= length (trust_evaluations log))%nat /\
    releases log = copied_trusts log.
Proof.
  intros st out st' log Hch Hrun.
  destruct op; simpl in Hrun;
    apply bind_inv in Hrun;
    destruct Hrun as [(a & s1 & l1 & l2 & Hsub & Hrun & ->)
                     | (hh & Hsub & ->)];
    unfold irssi_ssl_handshake, irssi_ssl_read, irssi_ssl_write,
      irssi_ssl_seek, irssi_ssl_close, irssi_ssl_create_watch,
      irssi_ssl_set_flags, irssi_ssl_get_flags in Hsub;
    apply (bind_deref_inv _ _ _ _ _ _ _ Hch) in Hsub;
    exec Hsub; try discriminate;
    try (match goal with H : Done _ = Done _ |- _ => inversion H; subst end);
    exec Hrun; split_tests;
    unfold completed_steps; simpl;
    repeat match goal with
    | H : (?a =? ?b) = _ |- context [?a =? ?b] => rewrite H
    end; simpl; repeat split; (reflexivity || lia).
Qed.

Lemma client_session_trust_counts h ch ops :
  forall s st out st' log,
    chans st !! h = Some ch ->
    client_session handler h s ops st = (out, st', log) ->
    (length (trust_evaluations log) <= length (completed_steps log))%nat /\
    (length (trust_panels log) <= length (trust_evaluations log))%nat /\
    releases log = copied_trusts log.
Proof.
  induction ops as [|op ops IH]; intros s st out st' log Hch Hrun.
  - simpl in Hrun. exec Hrun. repeat split; auto.
  - simpl in Hrun. apply bind_inv in Hrun.
    destruct Hrun as [(a & s1 & l1 & l2 & Hsub & Hrun & ->)
                     | (hh & Hsub & ->)].
    + pose proof (client_call_log _ _ _ _ _ _ _ _ _ Hch Hsub)
        as (Hc1 & _ & _).
      apply (client_call_trust_counts _ _ _ _ _ _ _ _ Hch) in Hsub.
      apply IH in Hrun; [|rewrite Hc1; exact Hch].
      destruct Hsub as (Ha1 & Hb1 & Hr1). destruct Hrun as (Ha2 & Hb2 & Hr2).
      unfold trust_evaluations, trust_panels, releases, copied_trusts in *.
      rewrite completed_steps_app, !flat_map_app, !length_app, Hr1, Hr2.
      repeat split; (reflexivity || lia).
    + apply (client_call_trust_counts _ _ _ _ _ _ _ _ Hch) in Hsub.
      exact Hsub.
Qed.

End Sessions.

(** X4.  Over any sequence of calls a client makes on a live channel
    (handshake attempts, reads, writes and the forwarded operations, in any
    order and from any lifecycle state), the trust is evaluated at most once
    per engine step that answered [noErr], the panel is shown at most once
    per evaluation, and the references released are exactly the trust
    objects copied. *)
Theorem session_evaluates_trust_once_per_completion :
  forall (W : Type) (handler : forall T : Type, call T -> W -> T * W)
         (st : St W) (handle : ptr) (ch : GIOSSLChannel)
         (s : lifecycle) (ops : list client_op),
    chans st !! handle = Some ch ->
    match client_session handler handle s ops st with
    | (_, _, log) =>
        (length (trust_evaluations log)
         <= length (completed_steps log))%nat /\
        (length (trust_panels log) <= length (trust_evaluations log))%nat /\
        releases log = copied_trusts log
    end.
Proof.
  intros W handler st handle ch s ops Hch.
  destruct (client_session handler handle s ops st)
    as [[out st'] log] eqn:Hrun.
  exact (client_session_trust_counts handler _ _ _ _ _ _ _ _ Hch Hrun).
Qed.

(** Three handshake attempts with a read and a close between them, the
    user refusing each time. *)
Lemma session_evaluates_trust_once_per_completion_witness :
  chans (live_state tt) !! 4096 = Some live_channel /\
  match client_session
          (staged_handler (mkSysReply 1 0) noErr
             kSecTrustResultRecoverableTrustFailure 0)
          4096 Unestablished
          [do_handshake; do_read 5; do_handshake; do_close; do_handshake]
          (live_state tt) with
  | (_, _, log) =>
      (length (trust_evaluations log) <= length (completed_steps log))%nat /\
      (length (trust_panels log) <= length (trust_evaluations log))%nat /\
      releases log = copied_trusts log
  end.
Proof.
  split; [reflexivity|].
  apply (session_evaluates_trust_once_per_completion unit
           (staged_handler (mkSysReply 1 0) noErr
              kSecTrustResultRecoverableTrustFailure 0)
           (live_state tt) 4096 live_channel Unestablished
           [do_handshake; do_read 5; do_handshake; do_close; do_handshake]).
  reflexivity.
Defined.



Lemma keychain_call_not_install_failure T (c : call T) :
  is_keychain_call T c = true -> is_install_failure T c = false.
Proof.
  destruct c; simpl; try congruence.
  intros H. apply orb_true_iff in H.
  destruct H as [H|H]; apply String.eqb_eq in H; subst fmt; reflexivity.
Qed.

Lemma keychain_call_not_teardown T (c : call T) :
  is_keychain_call T c = true -> is_teardown_call T c = false.
Proof. destruct c; simpl; congruence. Qed.

Section Construction.
Context {W : Type}.
Variable handler : forall T : Type, call T -> W -> T * W.

Lemma identity_search_loop_calls fuel :
  forall search name id st out st' log,
    identity_search_loop handler fuel search name id st = (out, st', log) ->
    Forall (fun e => event_is is_keychain_call e = true) log.
Proof.
  induction fuel as [|fuel IH]; intros search name id st out st' log Hrun.
  - simpl in Hrun. exec Hrun. constructor.
  - simpl in Hrun.
    exec Hrun; try (apply IH in Hrun); forall_events.
Qed.

Lemma CreateIdentityFromCommonName_calls fuel certificate privateKey :
  forall st out st' log,
    CreateIdentityFromCommonName handler fuel certificate privateKey st
      = (out, st', log) ->
    Forall (fun e => event_is is_keychain_call e = true) log.
Proof.
  intros st out st' log Hrun. unfold CreateIdentityFromCommonName in Hrun.
  exec Hrun.
  - forall_events.
  - apply bind_inv in Hrun.
    destruct Hrun as [(a & s1 & l1 & l2 & Hloop & Hrun & ->)
                     | (h & Hloop & ->)];
      apply identity_search_loop_calls in Hloop.
    + destruct a as [discovered identity].
      exec Hrun; forall_events.
    + forall_events.
Qed.
End Construction.

(** X8.  A run of [irssi_ssl_get_iochannel] that returns a channel has
    this shape, whatever the world answers: the descriptor is not 0; a new
    context is created and given the two relay functions; SSL 2 is
    disabled, certificate verification is set to [verify] and any root is
    allowed, the results of these three calls being ignored; with a
    certificate name the keychain lookup yields an identity, which is put in
    a one-element array, installed as certificate and as encryption
    certificate, and array and identity are released; then the structure is
    allocated, initialised and registered as the context's connection.  The
    structure at the returned address holds the descriptor, the raw channel,
    the context, [verify] and the host name, is readable and writeable and
    unbuffered.  Without a certificate name nothing happens between the
    configuration and the allocation. *)
Theorem constructor_success_configuration :
  forall (W : Type) (handler : forall T : Type, call T -> W -> T * W)
         (fuel : nat) (st st' : St W) (handle h : ptr)
         (hostname mycert mypkey cafile capath : option string)
         (verify : bool) (log : list event),
    irssi_ssl_get_iochannel handler fuel handle hostname mycert mypkey
      cafile capath verify st = (Done h, st', log) ->
    h <> NULL ->
    exists (fdv : Z) (ctx : ptr) (r1 r2 r3 : OSStatus) (mid : list event),
      fdv <> 0 /\
      log = [Ev (g_io_channel_unix_get_fd handle) fdv;
             Ev (SSLNewContext false) (noErr, ctx);
             Ev (SSLSetIOFuncs ctx fn_SSLReadFunction fn_SSLWriteFunction)
               noErr;
             Ev (SSLSetProtocolVersionEnabled ctx kSSLProtocol2 false) r1;
             Ev (SSLSetEnableCertVerify ctx verify) r2;
             Ev (SSLSetAllowsAnyRoot ctx true) r3]
            ++ mid
            ++ [Ev g_new0_GIOSSLChannel h;
                Ev (g_io_channel_init h) tt;
                Ev (SSLSetConnection ctx h) noErr] /\
      chans st'
      = <[h := opened_channel fdv handle ctx verify hostname]> (chans st) /\
      match mycert with
      | None => mid = []
      | Some _ =>
          exists (lookup : list event) (identity certificates : ptr),
            identity <> NULL /\
            Forall (fun e => event_is is_keychain_call e = true) lookup /\
            mid = lookup
                  ++ [Ev (CFArrayCreate [identity] 1) certificates;
                      Ev (SSLSetCertificate ctx certificates) noErr;
                      Ev (SSLSetEncryptionCertificate ctx certificates) noErr;
                      Ev (CFRelease certificates) tt;
                      Ev (CFRelease identity) tt]
      end.
Proof.
  intros W handler fuel st st' handle h hostname mycert mypkey cafile capath
    verify log Hrun Hnn.
  unfold irssi_ssl_get_iochannel in Hrun.
  destruct mycert as [certname|].
  - cbv zeta in Hrun. exec Hrun; eqb_facts; unit_replies;
      try (exfalso; apply Hnn; reflexivity).
    apply bind_inv in Hrun.
    destruct Hrun as [(a & s1 & l1 & l2 & Hsub & Hrun & ->)
                     | (hh & Hsub & Hbad)]; [|discriminate Hbad].
    pose proof (CreateIdentityFromCommonName_calls _ _ _ _ _ _ _ _ Hsub)
      as Hcalls.
    apply CreateIdentityFromCommonName_log in Hsub.
    destruct Hsub as (Hc & _ & _). cbn [chans] in Hc.
    exec Hrun; eqb_facts; unit_replies; subst;
      try (exfalso; apply Hnn; reflexivity); try congruence.
    cbn [chans]; rewrite !insert_insert_eq, Hc.
    eexists; eexists; eexists; eexists; eexists.
    match goal with
    | |- exists mid, _ /\
           _ :: _ :: _ :: _ :: _ :: _ :: ?l ++ ?a :: ?b :: ?c :: ?d :: ?e
             :: _ = _ /\ _ =>
        exists (l ++ [a; b; c; d; e])
    end.
    split; [|split; [simpl; rewrite <- app_assoc; reflexivity|]].
    + assumption.
    + split; [reflexivity|].
      eexists; eexists; eexists.
      split; [|split; [exact Hcalls|reflexivity]].
      assumption.
  - cbv zeta in Hrun. exec Hrun; eqb_facts; unit_replies;
      try (exfalso; apply Hnn; reflexivity).
    subst. cbn [chans]. rewrite !insert_insert_eq.
    eexists; eexists; eexists; eexists; eexists; exists [].
    split; [|split; [reflexivity|]].
    + assumption.
    + split; reflexivity.
Qed.

(** A run is determined by its outcome, final state and log. *)
Lemma run_components {A B C : Type} (run : A * B * C) (a : A) :
  fst (fst run) = a -> run = (a, snd (fst run), snd run).
Proof.
  destruct run as [[x y] z]. simpl. intros Ha. rewrite Ha. reflexivity.
Defined.

(** A keychain whose first identity matches and installs. *)
Lemma constructor_success_configuration_witness :
  irssi_ssl_get_iochannel (keychain_hit_handler noErr) 10 2048
    (Some "irc.example.org"%string) (Some "me"%string) None None None true
    (fresh_state tt)
  = (Done 4096,
     snd (fst (irssi_ssl_get_iochannel (keychain_hit_handler noErr) 10 2048
                 (Some "irc.example.org"%string) (Some "me"%string) None None
                 None true (fresh_state tt))),
     snd (irssi_ssl_get_iochannel (keychain_hit_handler noErr) 10 2048
            (Some "irc.example.org"%string) (Some "me"%string) None None None
            true (fresh_state tt))) /\
  4096 <> NULL /\
  exists (fdv : Z) (ctx : ptr) (r1 r2 r3 : OSStatus) (mid : list event),
    fdv <> 0 /\
    snd (irssi_ssl_get_iochannel (keychain_hit_handler noErr) 10 2048
           (Some "irc.example.org"%string) (Some "me"%string) None None None
           true (fresh_state tt))
    = [Ev (g_io_channel_unix_get_fd 2048) fdv;
       Ev (SSLNewContext false) (noErr, ctx);
       Ev (SSLSetIOFuncs ctx fn_SSLReadFunction fn_SSLWriteFunction) noErr;
       Ev (SSLSetProtocolVersionEnabled ctx kSSLProtocol2 false) r1;
       Ev (SSLSetEnableCertVerify ctx true) r2;
       Ev (SSLSetAllowsAnyRoot ctx true) r3]
      ++ mid
      ++ [Ev g_new0_GIOSSLChannel 4096;
          Ev (g_io_channel_init 4096) tt;
          Ev (SSLSetConnection ctx 4096) noErr] /\
    chans (snd (fst (irssi_ssl_get_iochannel (keychain_hit_handler noErr) 10
                       2048 (Some "irc.example.org"%string)
                       (Some "me"%string) None None None true
                       (fresh_state tt))))
    = <[4096 := opened_channel fdv 2048 ctx true
                  (Some "irc.example.org"%string)]> (chans (fresh_state tt)) /\
    exists (lookup : list event) (identity certificates : ptr),
      identity <> NULL /\
      Forall (fun e => event_is is_keychain_call e = true) lookup /\
      mid = lookup
            ++ [Ev (CFArrayCreate [identity] 1) certificates;
                Ev (SSLSetCertificate ctx certificates) noErr;
                Ev (SSLSetEncryptionCertificate ctx certificates) noErr;
                Ev (CFRelease certificates) tt;
                Ev (CFRelease identity) tt].
Proof.
  split; [apply run_components; reflexivity|].
  split; [intro Hc; discriminate Hc|].
  apply (constructor_success_configuration unit (keychain_hit_handler noErr)
           10 (fresh_state tt) _ 2048 4096 (Some "irc.example.org"%string)
           (Some "me"%string) None None None true _).
  - apply run_components; reflexivity.
  - intro Hc; discriminate Hc.
Defined.

(** X9.  When [irssi_ssl_get_iochannel] reports that the certificate
    could not be installed, it returns NULL without creating a structure,
    and in the whole run the context it created is not disposed of (nor is
    anything unreferenced or freed).  The failing status is that of [SSLSetCertificate], in which case
    [SSLSetEncryptionCertificate] is not tried, or that of
    [SSLSetEncryptionCertificate]; the array and the identity are released
    either way before the warning. *)
Theorem constructor_install_failure_keeps_context :
  forall (W : Type) (handler : forall T : Type, call T -> W -> T * W)
         (fuel : nat) (st : St W) (handle : ptr)
         (hostname mycert mypkey cafile capath : option string)
         (verify : bool),
    match irssi_ssl_get_iochannel handler fuel handle hostname mycert mypkey
            cafile capath verify st with
    | (out, st', log) =>
        (0 < count_calls is_install_failure log)%nat ->
        out = Done NULL /\ chans st' = chans st /\
        count_calls is_teardown_call log = 0%nat /\
        exists (pre : list event) (ctx identity certificates : ptr)
               (status : OSStatus),
          status <> noErr /\
          (log = pre
                 ++ [Ev (CFArrayCreate [identity] 1) certificates;
                     Ev (SSLSetCertificate ctx certificates) status;
                     Ev (CFRelease certificates) tt;
                     Ev (CFRelease identity) tt;
                     Ev (g_warning
                           "Failed to set certificate for SSL connection. %d"
                           [LInt status]) tt]
           \/
           log = pre
                 ++ [Ev (CFArrayCreate [identity] 1) certificates;
                     Ev (SSLSetCertificate ctx certificates) noErr;
                     Ev (SSLSetEncryptionCertificate ctx certificates)
                       status;
                     Ev (CFRelease certificates) tt;
                     Ev (CFRelease identity) tt;
                     Ev (g_warning
                           "Failed to set certificate for SSL connection. %d"
                           [LInt status]) tt])
    end.
Proof.
  intros W handler fuel st handle hostname mycert mypkey cafile capath verify.
  destruct (irssi_ssl_get_iochannel handler fuel handle hostname mycert
              mypkey cafile capath verify st) as [[out st'] log] eqn:Hrun.
  unfold irssi_ssl_get_iochannel in Hrun.
  destruct mycert as [certname|].
  - cbv zeta in Hrun. exec Hrun; eqb_facts; unit_replies;
      try no_lookup_failure.
    apply bind_inv in Hrun.
    destruct Hrun as [(a & s1 & l1 & l2 & Hsub & Hrun & ->)
                     | (hh & Hsub & ->)];
      pose proof (CreateIdentityFromCommonName_calls _ _ _ _ _ _ _ _ Hsub)
        as Hcalls;
      apply CreateIdentityFromCommonName_log in Hsub;
      destruct Hsub as (Hc & _ & _); cbn [chans] in Hc;
      pose proof (count_calls_disjoint is_install_failure _ _
                    keychain_call_not_install_failure Hcalls) as Hinst;
      pose proof (count_calls_disjoint is_teardown_call _ _
                    keychain_call_not_teardown Hcalls) as Htear;
      [|no_lookup_failure].
    exec Hrun; eqb_facts; unit_replies; subst; try no_lookup_failure.
    + (* SSLSetEncryptionCertificate failed *)
      intros _. split; [reflexivity|]. split; [exact Hc|]. split.
      { rewrite ?count_calls_cons, ?count_calls_app, Htear. reflexivity. }
      match goal with
      | |- context [?e1 :: ?e2 :: ?e3 :: ?e4 :: ?e5 :: ?e6 :: l1 ++ _] =>
          exists ([e1; e2; e3; e4; e5; e6] ++ l1)
      end.
      eexists; eexists; eexists; eexists.
      split; [|right; reflexivity].
      assumption.
    + (* SSLSetCertificate failed *)
      intros _. split; [reflexivity|]. split; [exact Hc|]. split.
      { rewrite ?count_calls_cons, ?count_calls_app, Htear. reflexivity. }
      match goal with
      | |- context [?e1 :: ?e2 :: ?e3 :: ?e4 :: ?e5 :: ?e6 :: l1 ++ _] =>
          exists ([e1; e2; e3; e4; e5; e6] ++ l1)
      end.
      eexists; eexists; eexists; eexists.
      split; [|left; reflexivity].
      assumption.
  - cbv zeta in Hrun. exec Hrun; eqb_facts; unit_replies; no_lookup_failure.
Qed.

(** The matching identity is refused by [SSLSetCertificate] with
    paramErr (-50). *)
Lemma constructor_install_failure_keeps_context_witness :
  Nat.lt 0
    (count_calls is_install_failure
       (snd (irssi_ssl_get_iochannel (keychain_hit_handler (-50)) 10 2048
               None (Some "me"%string) None None None false
               (fresh_state tt)))) /\
  match irssi_ssl_get_iochannel (keychain_hit_handler (-50)) 10 2048 None
          (Some "me"%string) None None None false (fresh_state tt) with
  | (out, st', log) =>
      (0 < count_calls is_install_failure log)%nat ->
      out = Done NULL /\ chans st' = chans (fresh_state tt) /\
      count_calls is_teardown_call log = 0%nat /\
      exists (pre : list event) (ctx identity certificates : ptr)
             (status : OSStatus),
        status <> noErr /\
        (log = pre
               ++ [Ev (CFArrayCreate [identity] 1) certificates;
                   Ev (SSLSetCertificate ctx certificates) status;
                   Ev (CFRelease certificates) tt;
                   Ev (CFRelease identity) tt;
                   Ev (g_warning
                         "Failed to set certificate for SSL connection. %d"
                         [LInt status]) tt]
         \/
         log = pre
               ++ [Ev (CFArrayCreate [identity] 1) certificates;
                   Ev (SSLSetCertificate ctx certificates) noErr;
                   Ev (SSLSetEncryptionCertificate ctx certificates) status;
                   Ev (CFRelease certificates) tt;
                   Ev (CFRelease identity) tt;
                   Ev (g_warning
                         "Failed to set certificate for SSL connection. %d"
                         [LInt status]) tt])
  end.
Proof.
  split.
  - vm_compute. constructor.
  - apply (constructor_install_failure_keeps_context unit
             (keychain_hit_handler (-50)) 10 (fresh_state tt) 2048 None
             (Some "me"%string) None None None false).
Defined.

(** X7.  [irssi_ssl_get_iochannel] asks for the raw channel's descriptor
    before anything else.  Descriptor 0 makes it return NULL at once: nothing
    else is called and no structure is created.  With any other descriptor
    its next act is [SSLNewContext] for a client-side context. *)
Theorem constructor_rejects_descriptor_zero :
  forall (W : Type) (handler : forall T : Type, call T -> W -> T * W)
         (fuel : nat) (st : St W) (handle : ptr)
         (hostname mycert mypkey cafile capath : option string)
         (verify : bool),
    match irssi_ssl_get_iochannel handler fuel handle hostname mycert mypkey
            cafile capath verify st with
    | (out, st', log) =>
        exists (fdv : Z) (rest : list event),
          log = Ev (g_io_channel_unix_get_fd handle) fdv :: rest /\
          (fdv = 0 ->
             out = Done NULL /\ chans st' = chans st /\ rest = []) /\
          (fdv <> 0 ->
             exists (reply : OSStatus * ptr) (rest' : list event),
               rest = Ev (SSLNewContext false) reply :: rest')
    end.
Proof.
  intros W handler fuel st handle hostname mycert mypkey cafile capath verify.
  destruct (irssi_ssl_get_iochannel handler fuel handle hostname mycert
              mypkey cafile capath verify st) as [[out st'] log] eqn:Hrun.
  unfold irssi_ssl_get_iochannel in Hrun.
  exec_step Hrun. exec_step Hrun.
  - exec Hrun. eqb_facts.
    eexists; eexists; split; [reflexivity|].
    split; [intros _; auto | intros Hc; contradiction].
  - exec_step Hrun. eqb_facts.
    eexists; eexists; split; [reflexivity|].
    split; [intros Hc; contradiction|].
    intros _. eexists; eexists; reflexivity.
Qed.

(** A raw channel on descriptor 0. *)
Lemma constructor_rejects_descriptor_zero_witness :
  match irssi_ssl_get_iochannel (descriptor_handler 0) 10 2048 None None None
          None None false (fresh_state tt) with
  | (out, st', log) =>
      exists (fdv : Z) (rest : list event),
        log = Ev (g_io_channel_unix_get_fd 2048) fdv :: rest /\
        (fdv = 0 ->
           out = Done NULL /\ chans st' = chans (fresh_state tt) /\
           rest = []) /\
        (fdv <> 0 ->
           exists (reply : OSStatus * ptr) (rest' : list event),
             rest = Ev (SSLNewContext false) reply :: rest')
  end /\
  snd (irssi_ssl_get_iochannel (descriptor_handler 0) 10 2048 None None None
         None None false (fresh_state tt))
  = [Ev (g_io_channel_unix_get_fd 2048) 0].
Proof.
  split; [|reflexivity].
  apply (constructor_rejects_descriptor_zero unit (descriptor_handler 0) 10
           (fresh_state tt) 2048 None None None None None false).
Defined.



Section Lookup.
Context {W : Type}.
Variable handler : forall T : Type, call T -> W -> T * W.

Lemma identity_search_loop_first_match fuel :
  forall search name id st discovered identity st' log,
    identity_search_loop handler fuel search name id st
      = (Done (discovered, identity), st', log) ->
    Forall (fun e => lookup_step_uses search name e = true) log /\
    exists pre tail,
      name_comparisons log = pre ++ tail /\
      Forall (fun z => z <> kCFCompareEqualTo) pre /\
      ((tail = [] /\ discovered = NULL) \/
       (tail = [kCFCompareEqualTo] /\ discovered = identity /\
        exists offers, identity_offers log = offers ++ [(noErr, identity)])).
Proof.
  induction fuel as [|fuel IH];
    intros search name id st discovered identity st' log Hrun.
  - simpl in Hrun. exec Hrun.
  - simpl in Hrun.
    exec Hrun; eqb_facts;
      try (apply IH in Hrun;
           destruct Hrun as (Huse & pre & tail & Hcmp & Hpre & Htail)).
    + (* certificate copy failed: next identity *)
      split.
      { repeat (apply Forall_cons_2; [simpl; rewrite ?Z.eqb_refl; reflexivity|]).
        exact Huse. }
      exists pre, tail. simpl. split; [exact Hcmp|]. split; [exact Hpre|].
      destruct Htail as [Ht | (Ht & Hd & offers & Ho)]; [left; exact Ht|].
      right. split; [exact Ht|]. split; [exact Hd|].
      exists ((o, p) :: offers).
      unfold identity_offers in *. simpl. rewrite Ho. reflexivity.
    + (* common name copy failed: next identity *)
      split.
      { repeat (apply Forall_cons_2; [simpl; rewrite ?Z.eqb_refl; reflexivity|]).
        exact Huse. }
      exists pre, tail. simpl. split; [exact Hcmp|]. split; [exact Hpre|].
      destruct Htail as [Ht | (Ht & Hd & offers & Ho)]; [left; exact Ht|].
      right. split; [exact Ht|]. split; [exact Hd|].
      exists ((o, p) :: offers).
      unfold identity_offers in *. simpl. rewrite Ho. reflexivity.
    + (* match *)
      subst. split.
      { repeat (apply Forall_cons_2; [simpl; rewrite ?Z.eqb_refl; reflexivity|]).
        constructor. }
      exists [], [kCFCompareEqualTo]. simpl.
      split; [reflexivity|]. split; [constructor|].
      right. split; [reflexivity|]. split; [reflexivity|].
      exists []. reflexivity.
    + (* no match: next identity *)
      split.
      { repeat (apply Forall_cons_2; [simpl; rewrite ?Z.eqb_refl; reflexivity|]).
        exact Huse. }
      exists (r :: pre), tail.
      unfold name_comparisons in *. simpl. rewrite Hcmp.
      split; [reflexivity|]. split; [constructor; assumption|].
      destruct Htail as [Ht | (Ht & Hd & offers & Ho)]; [left; exact Ht|].
      right. split; [exact Ht|]. split; [exact Hd|].
      exists ((o, p) :: offers).
      unfold identity_offers in *. simpl. rewrite Ho. reflexivity.
    + (* the search is exhausted *)
      split.
      { repeat (apply Forall_cons_2; [simpl; rewrite ?Z.eqb_refl; reflexivity|]).
        constructor. }
      exists [], []. simpl. split; [reflexivity|]. split; [constructor|].
      left. split; reflexivity.
Qed.
End Lookup.

(** X10.  [CreateIdentityFromCommonName] touches no channel structure.  If
    it returns an identity, that identity is the one the search handed out
    last, the last comparison of common names was the only one to answer
    [kCFCompareEqualTo], so the search stopped at the first match.  If no
    comparison answered [kCFCompareEqualTo], it returns NULL. *)
Theorem lookup_returns_first_match :
  forall (W : Type) (handler : forall T : Type, call T -> W -> T * W)
         (fuel : nat) (certificate : string) (privateKey : option string)
         (st st' : St W) (identity : ptr) (log : list event),
    CreateIdentityFromCommonName handler fuel certificate privateKey st
      = (Done identity, st', log) ->
    chans st' = chans st /\
    (identity <> NULL ->
       exists (pre : list Z) (offers : list (OSStatus * ptr)),
         name_comparisons log = pre ++ [kCFCompareEqualTo] /\
         Forall (fun z => z <> kCFCompareEqualTo) pre /\
         identity_offers log = offers ++ [(noErr, identity)]) /\
    (Forall (fun z => z <> kCFCompareEqualTo) (name_comparisons log) ->
       identity = NULL).
Proof.
  intros W handler fuel certificate privateKey st st' identity log Hrun.
  unfold CreateIdentityFromCommonName in Hrun.
  exec Hrun; eqb_facts.
  - cbn [chans]. split; [reflexivity|].
    split; [intros Hc; exfalso; apply Hc; reflexivity | intros _; reflexivity].
  - apply bind_inv in Hrun.
    destruct Hrun as [(a & s1 & l1 & l2 & Hloop & Hrun & ->)
                     | (h & _ & Hbad)]; [|discriminate Hbad].
    destruct a as [discovered found].
    pose proof (identity_search_loop_log _ _ _ _ _ _ _ _ _ Hloop)
      as (Hc & _ & _ & _). cbn [chans] in Hc.
    apply identity_search_loop_first_match in Hloop.
    destruct Hloop as (_ & pre & tail & Hcmp & Hpre & Htail).
    assert (Hcmps : forall rest : list event,
               name_comparisons rest = [] ->
               name_comparisons
                 (Ev (SecIdentitySearchCreate NULL 0) (o, p)
                  :: Ev (CFStringCreateWithCString certificate) r
                  :: l1 ++ rest) = pre ++ tail).
    { intros rest Hrest. unfold name_comparisons in *. simpl.
      rewrite flat_map_app, Hcmp, Hrest, app_nil_r. reflexivity. }
    assert (Hoffs : forall rest : list event,
               identity_offers rest = [] ->
               identity_offers
                 (Ev (SecIdentitySearchCreate NULL 0) (o, p)
                  :: Ev (CFStringCreateWithCString certificate) r
                  :: l1 ++ rest) = identity_offers l1).
    { intros rest Hrest. unfold identity_offers in *. simpl.
      rewrite flat_map_app, Hrest, app_nil_r. reflexivity. }
    exec Hrun; eqb_facts; cbn [chans]; (split; [exact Hc|]);
      rewrite Hcmps by reflexivity; rewrite Hoffs by reflexivity.
    + split; [intros Hc'; exfalso; apply Hc'; reflexivity|].
      intros _. reflexivity.
    + destruct Htail as [(Ht & Hd) | (Ht & Hd & offers & Ho)];
        [contradiction|]. subst tail found.
      split.
      * intros _. exists pre, offers. auto.
      * intros Hall. apply Forall_app in Hall. destruct Hall as [_ Hall].
        inversion Hall as [|z zs Hz _]; subst. exfalso. apply Hz. reflexivity.
Qed.

(** The fourth identity of the keychain is the one returned. *)
Lemma lookup_returns_first_match_witness :
  CreateIdentityFromCommonName fourth_matches_handler 10 "me" None
    (fresh_state 0%nat)
  = (Done 103,
     snd (fst (CreateIdentityFromCommonName fourth_matches_handler 10 "me"
                 None (fresh_state 0%nat))),
     snd (CreateIdentityFromCommonName fourth_matches_handler 10 "me" None
            (fresh_state 0%nat))) /\
  chans (snd (fst (CreateIdentityFromCommonName fourth_matches_handler 10
                     "me" None (fresh_state 0%nat))))
  = chans (fresh_state 0%nat) /\
  (103 <> NULL ->
     exists (pre : list Z) (offers : list (OSStatus * ptr)),
       name_comparisons
         (snd (CreateIdentityFromCommonName fourth_matches_handler 10 "me"
                 None (fresh_state 0%nat)))
       = pre ++ [kCFCompareEqualTo] /\
       Forall (fun z => z <> kCFCompareEqualTo) pre /\
       identity_offers
         (snd (CreateIdentityFromCommonName fourth_matches_handler 10 "me"
                 None (fresh_state 0%nat)))
       = offers ++ [(noErr, 103)]) /\
  (Forall (fun z => z <> kCFCompareEqualTo)
     (name_comparisons
        (snd (CreateIdentityFromCommonName fourth_matches_handler 10 "me"
                None (fresh_state 0%nat)))) ->
     103 = NULL).
Proof.
  split; [apply run_components; reflexivity|].
  apply (lookup_returns_first_match nat fourth_matches_handler 10 "me" None
           (fresh_state 0%nat) _ 103 _).
  apply run_components; reflexivity.
Defined.

(** X11.  A returning run of [CreateIdentityFromCommonName] either fails
    to create the search, warns once and returns NULL without any further
    call; or creates the search and the name string, walks the keychain
    using only that search and comparing only against that string with no
    options, then releases the name string and the search, in this order,
    and after that either returns the identity without another call or warns
    that nothing was found and returns NULL. *)
Theorem lookup_releases_search_and_name :
  forall (W : Type) (handler : forall T : Type, call T -> W -> T * W)
         (fuel : nat) (certificate : string) (privateKey : option string)
         (st st' : St W) (identity : ptr) (log : list event),
    CreateIdentityFromCommonName handler fuel certificate privateKey st
      = (Done identity, st', log) ->
    (exists (status : OSStatus) (searchRef : ptr),
       status <> noErr /\ identity = NULL /\
       log = [Ev (SecIdentitySearchCreate NULL 0) (status, searchRef);
              Ev (g_warning
                    (String.append
                       "Unable to create search for keychain identity matching "
                       quoted_s)
                    [LStr certificate]) tt])
    \/
    (exists (searchRef nameRef : ptr) (steps tail : list event),
       log = Ev (SecIdentitySearchCreate NULL 0) (noErr, searchRef)
             :: Ev (CFStringCreateWithCString certificate) nameRef
             :: steps
             ++ Ev (CFRelease nameRef) tt
             :: Ev (CFRelease searchRef) tt
             :: tail /\
       Forall (fun e => lookup_step_uses searchRef nameRef e = true) steps /\
       ((identity <> NULL /\ tail = []) \/
        (identity = NULL /\
         tail = [Ev (g_warning
                       (String.append
                          "Unable to find keychain identity with common name "
                          (String.append quoted_s "."))
                       [LStr certificate]) tt]))).
Proof.
  intros W handler fuel certificate privateKey st st' identity log Hrun.
  unfold CreateIdentityFromCommonName in Hrun.
  exec Hrun; eqb_facts; unit_replies.
  - left. eexists; eexists. split; [eassumption|].
    split; reflexivity.
  - apply bind_inv in Hrun.
    destruct Hrun as [(a & s1 & l1 & l2 & Hloop & Hrun & ->)
                     | (h & _ & Hbad)]; [|discriminate Hbad].
    destruct a as [discovered found].
    apply identity_search_loop_first_match in Hloop.
    destruct Hloop as (Huse & pre & tail & _ & _ & Htail).
    right. subst o.
    exec Hrun; eqb_facts; unit_replies;
      exists p, r, l1; eexists; (split; [reflexivity|]);
      (split; [exact Huse|]).
    + right. split; reflexivity.
    + left. split; [|reflexivity].
      destruct Htail as [(_ & Hd) | (_ & Hd & _)]; congruence.
Qed.

(** The same lookup: search and name string are released after the
    walk. *)
Lemma lookup_releases_search_and_name_witness :
  CreateIdentityFromCommonName fourth_matches_handler 10 "me" None
    (fresh_state 0%nat)
  = (Done 103,
     snd (fst (CreateIdentityFromCommonName fourth_matches_handler 10 "me"
                 None (fresh_state 0%nat))),
     snd (CreateIdentityFromCommonName fourth_matches_handler 10 "me" None
            (fresh_state 0%nat))) /\
  ((exists (status : OSStatus) (searchRef : ptr),
      status <> noErr /\ 103 = NULL /\
      snd (CreateIdentityFromCommonName fourth_matches_handler 10 "me" None
             (fresh_state 0%nat))
      = [Ev (SecIdentitySearchCreate NULL 0) (status, searchRef);
         Ev (g_warning
               (String.append
                  "Unable to create search for keychain identity matching "
                  quoted_s)
               [LStr "me"]) tt])
   \/
   (exists (searchRef nameRef : ptr) (steps tail : list event),
      snd (CreateIdentityFromCommonName fourth_matches_handler 10 "me" None
             (fresh_state 0%nat))
      = Ev (SecIdentitySearchCreate NULL 0) (noErr, searchRef)
        :: Ev (CFStringCreateWithCString "me") nameRef
        :: steps
        ++ Ev (CFRelease nameRef) tt
        :: Ev (CFRelease searchRef) tt
        :: tail /\
      Forall (fun e => lookup_step_uses searchRef nameRef e = true) steps /\
      ((103 <> NULL /\ tail = []) \/
       (103 = NULL /\
        tail = [Ev (g_warning
                      (String.append
                         "Unable to find keychain identity with common name "
                         (String.append quoted_s "."))
                      [LStr "me"]) tt])))).
Proof.
  split; [apply run_components; reflexivity|].
  apply (lookup_releases_search_and_name nat fourth_matches_handler 10 "me"
           None (fresh_state 0%nat)
           (snd (fst (CreateIdentityFromCommonName fourth_matches_handler 10
                        "me" None (fresh_state 0%nat))))
           103 _).
  apply run_components; reflexivity.
Defined.

Section RelayProgress.
Context {W : Type}.
Variable handler : forall T : Type, call T -> W -> T * W.
Variables (fd : Z) (dataLength : Z).
Hypothesis Hsize : dataLength < SIZE_MOD.

Lemma read_loop_returns :
  posix_read_ok handler -> read_makes_progress handler ->
  forall fuel data len st,
    0 <= len <= dataLength ->
    (Z.to_nat (dataLength - len) <= fuel)%nat ->
    match SSLReadFunction_loop handler fuel fd data dataLength len st with
    | (out, _, log) =>
        (exists res, out = Done res) /\
        (count_calls is_raw_io log <= Z.to_nat (dataLength - len))%nat
    end.
Proof.
  intros Hposix Hprog.
  induction fuel as [|fuel IH]; intros data len st Hr Hfuel.
  { simpl. destruct (len <? dataLength) eqn:E.
    - apply Z.ltb_lt in E. lia.
    - cbn. split; [eexists; reflexivity|]. lia. }
  simpl. destruct (len <? dataLength) eqn:E.
  2:{ cbn. split; [eexists; reflexivity|]. lia. }
  apply Z.ltb_lt in E.
  unfold bind at 1. unfold ext at 1.
  pose proof (Hposix (env st) fd (dataLength - len) ltac:(lia)) as Hp.
  pose proof (Hprog (env st) fd (dataLength - len) ltac:(lia)) as Hg.
  destruct (handler read_reply (sys_read fd (dataLength - len)) (env st))
    as [r w] eqn:Eh.
  simpl in Hp, Hg.
  destruct r as [rret rerr rbytes]; simpl in *.
  destruct Hp as [Hfail | (Hok & Hss & Hbytes)].
  - subst rret. rewrite Z.eqb_refl.
    destruct (rerr =? EAGAIN) eqn:Eerr.
    + cbn. split; [eexists; reflexivity|]. lia.
    + unfold bind, ext, ret; simpl.
      destruct (handler () (g_warning "read returned %d" [LInt rerr]) w)
        as [u w'] eqn:Ew.
      cbn. split; [eexists; reflexivity|]. lia.
  - assert (HSM : SIZE_MOD = 18446744073709551616) by reflexivity.
    rewrite (to_size_t_small rret) by lia.
    rewrite to_size_t_minus_one.
    destruct (rret =? SIZE_MOD - 1) eqn:Em1; [apply Z.eqb_eq in Em1; lia|].
    rewrite (to_size_t_small (len + rret)) by lia.
    specialize (IH (poke data len rbytes) (len + rret)
                   {| env := w; chans := chans st |}
                   ltac:(lia) ltac:(lia)).
    destruct (SSLReadFunction_loop handler fuel fd (poke data len rbytes)
                dataLength (len + rret) {| env := w; chans := chans st |})
      as [[out st'] log].
    destruct IH as (Hout & Hcount).
    split; [exact Hout|].
    rewrite count_calls_cons. simpl. lia.
Qed.

Lemma write_loop_returns :
  posix_write_ok handler -> write_makes_progress handler ->
  forall fuel data len st,
    0 <= len <= dataLength ->
    (Z.to_nat (dataLength - len) <= fuel)%nat ->
    match SSLWriteFunction_loop handler fuel fd data dataLength len st with
    | (out, _, log) =>
        (exists res, out = Done res) /\
        (count_calls is_raw_io log <= Z.to_nat (dataLength - len))%nat
    end.
Proof.
  intros Hposix Hprog.
  induction fuel as [|fuel IH]; intros data len st Hr Hfuel.
  { simpl. destruct (len <? dataLength) eqn:E.
    - apply Z.ltb_lt in E. lia.
    - cbn. split; [eexists; reflexivity|]. lia. }
  simpl. destruct (len <? dataLength) eqn:E.
  2:{ cbn. split; [eexists; reflexivity|]. lia. }
  apply Z.ltb_lt in E.
  set (chunk := if dataLength - len <? 4096 then dataLength - len else 4096).
  assert (Hchunk : 0 < chunk <= 4096 /\ chunk <= dataLength - len).
  { unfold chunk. destruct (dataLength - len <? 4096) eqn:E2;
      [apply Z.ltb_lt in E2 | apply Z.ltb_ge in E2]; lia. }
  unfold bind at 1. unfold ext at 1.
  pose proof (Hposix (env st) fd (peek data len chunk) chunk ltac:(lia))
    as Hp.
  pose proof (Hprog (env st) fd (peek data len chunk) chunk ltac:(lia))
    as Hg.
  destruct (handler sys_reply (sys_write fd (peek data len chunk) chunk)
              (env st)) as [r w] eqn:Eh.
  simpl in Hp, Hg.
  destruct r as [rret rerr]; simpl in *.
  destruct Hp as [Hfail | Hok].
  - subst rret. rewrite Z.eqb_refl.
    destruct (rerr =? EAGAIN) eqn:Eerr.
    + cbn. split; [eexists; reflexivity|]. lia.
    + unfold bind, ext, ret; simpl.
      destruct (handler () (g_warning "write returned %d" [LInt rerr]) w)
        as [u w'] eqn:Ew.
      cbn. split; [eexists; reflexivity|]. lia.
  - assert (HSM : SIZE_MOD = 18446744073709551616) by reflexivity.
    rewrite (to_size_t_small rret) by lia.
    rewrite to_size_t_minus_one.
    destruct (rret =? SIZE_MOD - 1) eqn:Em1; [apply Z.eqb_eq in Em1; lia|].
    rewrite (to_size_t_small (len + rret)) by lia.
    specialize (IH data (len + rret) {| env := w; chans := chans st |}
                   ltac:(lia) ltac:(lia)).
    destruct (SSLWriteFunction_loop handler fuel fd data dataLength
                (len + rret) {| env := w; chans := chans st |})
      as [[out st'] log].
    destruct IH as (Hout & Hcount).
    split; [exact Hout|].
    rewrite count_calls_cons. simpl. lia.
Qed.

End RelayProgress.

Section RelayFailure.
Context {W : Type}.
Variable handler : forall T : Type, call T -> W -> T * W.
Variables (fd : Z) (dataLength : Z).
Hypothesis Hsize : dataLength < SIZE_MOD.

Lemma read_loop_failure_short :
  posix_read_ok handler ->
  forall fuel data len st,
    0 <= len <= dataLength ->
    match SSLReadFunction_loop handler fuel fd data dataLength len st with
    | (_, _, log) =>
        raw_failures log <> [] ->
        len + Z.of_nat (length (delivered log)) < dataLength
    end.
Proof.
  intros Hposix.
  induction fuel as [|fuel IH]; intros data len st Hr.
  { simpl. destruct (len <? dataLength); cbn; intros Hc; congruence. }
  simpl. destruct (len <? dataLength) eqn:E.
  2:{ cbn. intros Hc; congruence. }
  apply Z.ltb_lt in E.
  unfold bind at 1. unfold ext at 1.
  pose proof (Hposix (env st) fd (dataLength - len) ltac:(lia)) as Hp.
  destruct (handler read_reply (sys_read fd (dataLength - len)) (env st))
    as [r w] eqn:Eh.
  simpl in Hp.
  destruct r as [rret rerr rbytes]; simpl in *.
  destruct Hp as [Hfail | (Hok & Hss & Hbytes)].
  - subst rret. rewrite Z.eqb_refl.
    destruct (rerr =? EAGAIN) eqn:Eerr.
    + cbn. intros _. lia.
    + unfold bind, ext, ret; simpl.
      destruct (handler () (g_warning "read returned %d" [LInt rerr]) w)
        as [u w'] eqn:Ew.
      cbn. intros _. lia.
  - assert (HSM : SIZE_MOD = 18446744073709551616) by reflexivity.
    rewrite (to_size_t_small rret) by lia.
    rewrite to_size_t_minus_one.
    destruct (rret =? SIZE_MOD - 1) eqn:Em1; [apply Z.eqb_eq in Em1; lia|].
    rewrite (to_size_t_small (len + rret)) by lia.
    specialize (IH (poke data len rbytes) (len + rret)
                   {| env := w; chans := chans st |} ltac:(lia)).
    destruct (SSLReadFunction_loop handler fuel fd (poke data len rbytes)
                dataLength (len + rret) {| env := w; chans := chans st |})
      as [[out st'] log].
    cbn.
    assert (Hneg : (rret <? 0) = false) by (apply Z.ltb_ge; lia).
    rewrite Hneg.
    change (flat_map failure_of log) with (raw_failures log).
    change (flat_map received_by log) with (delivered log).
    intros Hf. specialize (IH Hf). rewrite length_app. lia.
Qed.

Lemma write_loop_failure_short :
  posix_write_ok handler ->
  forall fuel data len st,
    0 <= len <= dataLength ->
    dataLength <= Z.of_nat (length data) ->
    match SSLWriteFunction_loop handler fuel fd data dataLength len st with
    | (_, _, log) =>
        raw_failures log <> [] ->
        len + Z.of_nat (length (wire log)) < dataLength
    end.
Proof.
  intros Hposix.
  induction fuel as [|fuel IH]; intros data len st Hr Hd.
  { simpl. destruct (len <? dataLength); cbn; intros Hc; congruence. }
  simpl. destruct (len <? dataLength) eqn:E.
  2:{ cbn. intros Hc; congruence. }
  apply Z.ltb_lt in E.
  set (chunk := if dataLength - len <? 4096 then dataLength - len else 4096).
  assert (Hchunk : 0 < chunk <= 4096 /\ chunk <= dataLength - len).
  { unfold chunk. destruct (dataLength - len <? 4096) eqn:E2;
      [apply Z.ltb_lt in E2 | apply Z.ltb_ge in E2]; lia. }
  unfold bind at 1. unfold ext at 1.
  pose proof (Hposix (env st) fd (peek data len chunk) chunk ltac:(lia))
    as Hp.
  destruct (handler sys_reply (sys_write fd (peek data len chunk) chunk)
              (env st)) as [r w] eqn:Eh.
  simpl in Hp.
  destruct r as [rret rerr]; simpl in *.
  destruct Hp as [Hfail | Hok].
  - subst rret. rewrite Z.eqb_refl.
    destruct (rerr =? EAGAIN) eqn:Eerr.
    + cbn. intros _. lia.
    + unfold bind, ext, ret; simpl.
      destruct (handler () (g_warning "write returned %d" [LInt rerr]) w)
        as [u w'] eqn:Ew.
      cbn. intros _. lia.
  - assert (HSM : SIZE_MOD = 18446744073709551616) by reflexivity.
    rewrite (to_size_t_small rret) by lia.
    rewrite to_size_t_minus_one.
    destruct (rret =? SIZE_MOD - 1) eqn:Em1; [apply Z.eqb_eq in Em1; lia|].
    rewrite (to_size_t_small (len + rret)) by lia.
    specialize (IH data (len + rret) {| env := w; chans := chans st |}
                   ltac:(lia) Hd).
    destruct (SSLWriteFunction_loop handler fuel fd data dataLength
                (len + rret) {| env := w; chans := chans st |})
      as [[out st'] log].
    cbn.
    assert (Hneg : (rret <? 0) = false) by (apply Z.ltb_ge; lia).
    rewrite Hneg.
    change (flat_map failure_of log) with (raw_failures log).
    change (flat_map sent_by log) with (wire log).
    intros Hf. specialize (IH Hf). rewrite length_app, length_take.
    unfold peek. rewrite length_take, length_drop. lia.
Qed.

End RelayFailure.

(** X12.  On a descriptor that answers as POSIX allows and on which every
    successful [read] of a non-empty request delivers at least one byte,
    [_SSLReadFunction] returns after at most [dataLength] calls of [read]:
    fuel [dataLength] is enough for the loop. *)
Theorem relay_read_returns_when_reads_progress :
  forall (W : Type) (handler : forall T : Type, call T -> W -> T * W)
         (fuel : nat) (st : St W) (connection : ptr) (ch : GIOSSLChannel)
         (data : list byte) (dataLength : Z),
    posix_read_ok handler ->
    read_makes_progress handler ->
    chans st !! connection = Some ch ->
    0 <= dataLength < SIZE_MOD ->
    (Z.to_nat dataLength <= fuel)%nat ->
    match _SSLReadFunction handler fuel connection data dataLength st with
    | (out, _, log) =>
        (exists res, out = Done res) /\
        (count_calls is_raw_io log <= Z.to_nat dataLength)%nat
    end.
Proof.
  intros W handler fuel st connection ch data dataLength Hposix Hprog Hch
    Hlen Hfuel.
  unfold _SSLReadFunction, bind, deref. rewrite Hch.
  pose proof (read_loop_returns handler (fd ch) dataLength ltac:(lia)
                Hposix Hprog fuel data 0 st ltac:(lia)) as Hret.
  rewrite Z.sub_0_r in Hret. specialize (Hret Hfuel).
  destruct (SSLReadFunction_loop handler fuel (fd ch) data dataLength 0 st)
    as [[out st'] log].
  exact Hret.
Qed.

(** The trickling descriptor conforms to both progress conditions. *)
Lemma trickle_read_makes_progress : read_makes_progress trickle_handler.
Proof.
  intros w fd count Hc. simpl. destruct (Nat.eqb w 2); simpl; lia.
Defined.

Lemma trickle_write_makes_progress : write_makes_progress trickle_handler.
Proof.
  intros w fd buf count Hc. simpl. destruct (Nat.eqb w 2); simpl; lia.
Defined.

(** Five bytes asked of the trickling descriptor with fuel five. *)
Lemma relay_read_returns_when_reads_progress_witness :
  posix_read_ok trickle_handler /\
  read_makes_progress trickle_handler /\
  chans (live_state 0%nat) !! 4096 = Some live_channel /\
  0 <= 5 < SIZE_MOD /\
  (Z.to_nat 5 <= 5)%nat /\
  match _SSLReadFunction trickle_handler 5 4096 five_zeros 5
          (live_state 0%nat) with
  | (out, _, log) =>
      (exists res, out = Done res) /\
      (count_calls is_raw_io log <= Z.to_nat 5)%nat
  end.
Proof.
  split; [exact trickle_posix_read_ok|].
  split; [exact trickle_read_makes_progress|].
  split; [reflexivity|].
  split; [split; [intro Hc; discriminate Hc | reflexivity]|].
  split; [vm_compute; lia|].
  apply (relay_read_returns_when_reads_progress nat trickle_handler 5
           (live_state 0%nat) 4096 live_channel five_zeros 5
           trickle_posix_read_ok trickle_read_makes_progress).
  - reflexivity.
  - split; [intro Hc; discriminate Hc | reflexivity].
  - vm_compute; lia.
Defined.

(** X13.  On a descriptor that answers as POSIX allows and on which every
    successful [write] of a non-empty request takes at least one byte,
    [_SSLWriteFunction] returns after at most [dataLength] calls of
    [write]. *)
Theorem relay_write_returns_when_writes_progress :
  forall (W : Type) (handler : forall T : Type, call T -> W -> T * W)
         (fuel : nat) (st : St W) (connection : ptr) (ch : GIOSSLChannel)
         (data : list byte) (dataLength : Z),
    posix_write_ok handler ->
    write_makes_progress handler ->
    chans st !! connection = Some ch ->
    0 <= dataLength < SIZE_MOD ->
    (Z.to_nat dataLength <= fuel)%nat ->
    match _SSLWriteFunction handler fuel connection data dataLength st with
    | (out, _, log) =>
        (exists res, out = Done res) /\
        (count_calls is_raw_io log <= Z.to_nat dataLength)%nat
    end.
Proof.
  intros W handler fuel st connection ch data dataLength Hposix Hprog Hch
    Hlen Hfuel.
  unfold _SSLWriteFunction, bind, deref. rewrite Hch.
  pose proof (write_loop_returns handler (fd ch) dataLength ltac:(lia)
                Hposix Hprog fuel data 0 st ltac:(lia)) as Hret.
  rewrite Z.sub_0_r in Hret. specialize (Hret Hfuel).
  destruct (SSLWriteFunction_loop handler fuel (fd ch) data dataLength 0 st)
    as [[out st'] log].
  exact Hret.
Qed.

(** Five bytes offered to the trickling descriptor with fuel five. *)
Lemma relay_write_returns_when_writes_progress_witness :
  posix_write_ok trickle_handler /\
  write_makes_progress trickle_handler /\
  chans (live_state 0%nat) !! 4096 = Some live_channel /\
  0 <= 5 < SIZE_MOD /\
  (Z.to_nat 5 <= 5)%nat /\
  match _SSLWriteFunction trickle_handler 5 4096 five_bytes 5
          (live_state 0%nat) with
  | (out, _, log) =>
      (exists res, out = Done res) /\
      (count_calls is_raw_io log <= Z.to_nat 5)%nat
  end.
Proof.
  split; [exact trickle_posix_write_ok|].
  split; [exact trickle_write_makes_progress|].
  split; [reflexivity|].
  split; [split; [intro Hc; discriminate Hc | reflexivity]|].
  split; [vm_compute; lia|].
  apply (relay_write_returns_when_writes_progress nat trickle_handler 5
           (live_state 0%nat) 4096 live_channel five_bytes 5
           trickle_posix_write_ok trickle_write_makes_progress).
  - reflexivity.
  - split; [intro Hc; discriminate Hc | reflexivity].
  - vm_compute; lia.
Defined.

(** X14.  When a relay function returns [errSSLInternal] (a raw call
    failed with an errno other than EAGAIN), it leaves the count at the
    value requested, although strictly fewer bytes than that were
    moved. *)
Theorem relay_error_reports_requested_length :
  forall (W : Type) (handler : forall T : Type, call T -> W -> T * W)
         (fuel : nat) (st : St W) (connection : ptr) (ch : GIOSSLChannel)
         (data : list byte) (dataLength : Z),
    posix_read_ok handler ->
    posix_write_ok handler ->
    chans st !! connection = Some ch ->
    0 <= dataLength <= Z.of_nat (length data) ->
    dataLength < SIZE_MOD ->
    match _SSLReadFunction handler fuel connection data dataLength st with
    | (Done (status, _, n), _, log) =>
        status = errSSLInternal ->
        n = dataLength /\ Z.of_nat (length (delivered log)) < dataLength
    | _ => True
    end /\
    match _SSLWriteFunction handler fuel connection data dataLength st with
    | (Done (status, n), _, log) =>
        status = errSSLInternal ->
        n = dataLength /\ Z.of_nat (length (wire log)) < dataLength
    | _ => True
    end.
Proof.
  intros W handler fuel st connection ch data dataLength Hpr Hpw Hch Hlen
    Hsize.
  split.
  - unfold _SSLReadFunction, bind, deref. rewrite Hch.
    pose proof (read_loop_inv handler Hpr (fd ch) dataLength Hsize fuel
                  data 0 st ltac:(lia) ltac:(lia)) as Hinv.
    pose proof (read_loop_failure_short handler (fd ch) dataLength Hsize
                  Hpr fuel data 0 st ltac:(lia)) as Hshort.
    destruct (SSLReadFunction_loop handler fuel (fd ch) data dataLength 0 st)
      as [[out st'] log].
    cbn in Hinv. destruct Hinv as (_ & _ & Hout).
    destruct out as [[[status data'] n]|h]; [|exact I].
    simpl. intros Hst.
    destruct Hout as (_ & [(Hs & _) | [(Hs & _) | (_ & Hn & e & Hf & _)]]);
      try (rewrite Hst in Hs; discriminate Hs).
    split; [exact Hn|].
    assert (Hne : raw_failures log <> []) by (rewrite Hf; discriminate).
    specialize (Hshort Hne). lia.
  - unfold _SSLWriteFunction, bind, deref. rewrite Hch.
    pose proof (write_loop_inv handler Hpw (fd ch) data dataLength
                  ltac:(lia) Hsize fuel 0 st ltac:(lia)) as Hinv.
    pose proof (write_loop_failure_short handler (fd ch) dataLength Hsize
                  Hpw fuel data 0 st ltac:(lia) ltac:(lia)) as Hshort.
    destruct (SSLWriteFunction_loop handler fuel (fd ch) data dataLength 0 st)
      as [[out st'] log].
    cbn in Hinv. destruct Hinv as (_ & _ & Hout).
    destruct out as [[status n]|h]; [|exact I].
    simpl. intros Hst.
    destruct Hout as [(Hs & _) | [(Hs & _) | (_ & Hn & e & Hf & _)]];
      try (rewrite Hst in Hs; discriminate Hs).
    split; [exact Hn|].
    assert (Hne : raw_failures log <> []) by (rewrite Hf; discriminate).
    specialize (Hshort Hne). lia.
Qed.

(** The failing descriptor answers as POSIX allows. *)
Lemma failing_posix_write_ok : posix_write_ok failing_handler.
Proof.
  intros w fd buf count Hc. simpl. destruct (Nat.eqb w 1); simpl; lia.
Defined.

Lemma failing_posix_read_ok : posix_read_ok failing_handler.
Proof.
  intros w fd count Hc. simpl. destruct (Nat.eqb w 1); simpl; [lia|].
  right. rewrite repeat_length. lia.
Defined.

(** Two bytes go through, then EPIPE: the write relay reports five. *)
Lemma relay_error_reports_requested_length_witness :
  posix_read_ok failing_handler /\
  posix_write_ok failing_handler /\
  chans (live_state 0%nat) !! 4096 = Some live_channel /\
  0 <= 5 <= Z.of_nat (length five_zeros) /\
  5 < SIZE_MOD /\
  fst (fst (_SSLWriteFunction failing_handler 10 4096 five_zeros 5
              (live_state 0%nat))) = Done (errSSLInternal, 5) /\
  wire (snd (_SSLWriteFunction failing_handler 10 4096 five_zeros 5
               (live_state 0%nat))) = [Byte.x00; Byte.x00] /\
  match _SSLReadFunction failing_handler 10 4096 five_zeros 5
          (live_state 0%nat) with
  | (Done (status, _, n), _, log) =>
      status = errSSLInternal ->
      n = 5 /\ Z.of_nat (length (delivered log)) < 5
  | _ => True
  end /\
  match _SSLWriteFunction failing_handler 10 4096 five_zeros 5
          (live_state 0%nat) with
  | (Done (status, n), _, log) =>
      status = errSSLInternal ->
      n = 5 /\ Z.of_nat (length (wire log)) < 5
  | _ => True
  end.
Proof.
  split; [exact failing_posix_read_ok|].
  split; [exact failing_posix_write_ok|].
  split; [reflexivity|].
  split; [split; intro Hc; discriminate Hc|].
  split; [reflexivity|].
  split; [reflexivity|].
  split; [reflexivity|].
  apply (relay_error_reports_requested_length nat failing_handler 10
           (live_state 0%nat) 4096 live_channel five_zeros 5
           failing_posix_read_ok failing_posix_write_ok).
  - reflexivity.
  - split; intro Hc; discriminate Hc.
  - reflexivity.
Defined.
